(** * symforce geometry kernel: Pose3 Lie-group operations, Pose2 point
  actions, camera viewport gating and storage round trips.

  The generated C++ is templated over [Scalar] and written as flat blocks
  of common-subexpression-eliminated arithmetic.  The development reads
  those blocks over the real numbers: [Scalar] is [R], [std::sqrt],
  [std::sin], [std::cos], [std::acos] are the functions of the same names
  of the Reals library, [std::max]/[std::min] are [Rmax]/[Rmin], and the
  division of the code is the (total) division of [R].  Rounding, overflow
  and NaN of the [float]/[double] instantiations are outside this reading. *)

From Stdlib Require Import Reals Lra Lia ZArith List Bool RNsatz Classical.
From Stdlib Require Floats.
Import ListNotations.

Open Scope R_scope.

(** ** Scalars and fixed-size Eigen column vectors *)

(** The template parameter [Scalar], read as the real numbers. *)
Abbreviation Scalar := R.

(** Boolean readings of the C++ comparisons on scalars. *)
Definition Rleb (x y : Scalar) : bool := if Rle_dec x y then true else false.
Definition Rltb (x y : Scalar) : bool := if Rlt_dec x y then true else false.
Definition Rgeb (x y : Scalar) : bool := Rleb y x.
Definition Reqb (x y : Scalar) : bool := if Req_dec_T x y then true else false.

Module Eigen.

(** [Eigen::Matrix<Scalar, n, 1>] for the sizes the sources use. *)
Inductive Vector2 : Type := Vec2 (e0 e1 : Scalar).
Inductive Vector3 : Type := Vec3 (e0 e1 e2 : Scalar).
Inductive Vector4 : Type := Vec4 (e0 e1 e2 e3 : Scalar).
Inductive Vector5 : Type := Vec5 (e0 e1 e2 e3 e4 : Scalar).
Inductive Vector6 : Type := Vec6 (e0 e1 e2 e3 e4 e5 : Scalar).
Inductive Vector7 : Type := Vec7 (e0 e1 e2 e3 e4 e5 e6 : Scalar).

(** [Eigen::Vector2i], the image size of a camera. *)
Inductive Vector2i : Type := Vec2i (e0 e1 : Z).

(** [operator[]].  Every index in the sources is a literal inside the
    vector; the fall-through value is never reached by them. *)
Class Indexed (V E : Type) : Type := coeff : V -> nat -> E.

#[global] Instance Indexed_Vector2 : Indexed Vector2 Scalar :=
  fun v i => match v, i with
             | Vec2 e0 _, O => e0
             | Vec2 _ e1, _ => e1
             end.

#[global] Instance Indexed_Vector3 : Indexed Vector3 Scalar :=
  fun v i => match v, i with
             | Vec3 e0 _ _, O => e0
             | Vec3 _ e1 _, S O => e1
             | Vec3 _ _ e2, _ => e2
             end.

#[global] Instance Indexed_Vector4 : Indexed Vector4 Scalar :=
  fun v i => match v, i with
             | Vec4 e0 _ _ _, O => e0
             | Vec4 _ e1 _ _, S O => e1
             | Vec4 _ _ e2 _, S (S O) => e2
             | Vec4 _ _ _ e3, _ => e3
             end.

#[global] Instance Indexed_Vector5 : Indexed Vector5 Scalar :=
  fun v i => match v, i with
             | Vec5 e0 _ _ _ _, 0%nat => e0
             | Vec5 _ e1 _ _ _, 1%nat => e1
             | Vec5 _ _ e2 _ _, 2%nat => e2
             | Vec5 _ _ _ e3 _, 3%nat => e3
             | Vec5 _ _ _ _ e4, _ => e4
             end.

#[global] Instance Indexed_Vector6 : Indexed Vector6 Scalar :=
  fun v i => match v, i with
             | Vec6 e0 _ _ _ _ _, 0%nat => e0
             | Vec6 _ e1 _ _ _ _, 1%nat => e1
             | Vec6 _ _ e2 _ _ _, 2%nat => e2
             | Vec6 _ _ _ e3 _ _, 3%nat => e3
             | Vec6 _ _ _ _ e4 _, 4%nat => e4
             | Vec6 _ _ _ _ _ e5, _ => e5
             end.

#[global] Instance Indexed_Vector7 : Indexed Vector7 Scalar :=
  fun v i => match v, i with
             | Vec7 e0 _ _ _ _ _ _, 0%nat => e0
             | Vec7 _ e1 _ _ _ _ _, 1%nat => e1
             | Vec7 _ _ e2 _ _ _ _, 2%nat => e2
             | Vec7 _ _ _ e3 _ _ _, 3%nat => e3
             | Vec7 _ _ _ _ e4 _ _, 4%nat => e4
             | Vec7 _ _ _ _ _ e5 _, 5%nat => e5
             | Vec7 _ _ _ _ _ _ e6, _ => e6
             end.

#[global] Instance Indexed_Vector2i : Indexed Vector2i Z :=
  fun v i => match v, i with
             | Vec2i e0 _, O => e0
             | Vec2i _ e1, _ => e1
             end.

End Eigen.
Import Eigen.

Notation "v .[ i ]" := (coeff v i%nat)
(at level 1, left associativity, format "v .[ i ]").

(** Unfolds every vector access of a goal. *)
Ltac unfold_coeff :=
cbv [coeff Indexed_Vector2 Indexed_Vector3 Indexed_Vector4 Indexed_Vector5
     Indexed_Vector6 Indexed_Vector7 Indexed_Vector2i] in *.

(** [Eigen::Matrix<Scalar, 3, 3>], entries by row, with [operator()(i, j)]
    and the product with a column vector. *)
Module EigenMatrix.

Inductive Matrix33 : Type :=
  Mat33 (m00 m01 m02 m10 m11 m12 m20 m21 m22 : Scalar).

Definition at33 (m : Matrix33) (i j : nat) : Scalar :=
  match m with
  | Mat33 m00 m01 m02 m10 m11 m12 m20 m21 m22 =>
      match i, j with
      | 0%nat, 0%nat => m00 | 0%nat, 1%nat => m01 | 0%nat, _ => m02
      | 1%nat, 0%nat => m10 | 1%nat, 1%nat => m11 | 1%nat, _ => m12
      | _, 0%nat => m20 | _, 1%nat => m21 | _, _ => m22
      end
  end.

Definition mul33 (m : Matrix33) (v : Vector3) : Vector3 :=
  Vec3 (at33 m 0 0 * v.[0] + at33 m 0 1 * v.[1] + at33 m 0 2 * v.[2])
       (at33 m 1 0 * v.[0] + at33 m 1 1 * v.[1] + at33 m 1 2 * v.[2])
       (at33 m 2 0 * v.[0] + at33 m 2 1 * v.[1] + at33 m 2 2 * v.[2]).

Definition det33 (m : Matrix33) : Scalar :=
  at33 m 0 0 * (at33 m 1 1 * at33 m 2 2 - at33 m 1 2 * at33 m 2 1)
  - at33 m 0 1 * (at33 m 1 0 * at33 m 2 2 - at33 m 1 2 * at33 m 2 0)
  + at33 m 0 2 * (at33 m 1 0 * at33 m 2 1 - at33 m 1 1 * at33 m 2 0).

End EigenMatrix.
Import EigenMatrix.

(** ** geo::Pose3 and its Lie-group operations
  (gen/cpp/geo/ops/pose3/lie_group_ops.cc) *)

Module pose3.

(** [geo::Pose3<Scalar>]: the storage [qx, qy, qz, qw, tx, ty, tz] behind
    [Data()].  Construction from a vector is trusted, not renormalised. *)
Record Pose3 : Type := mkPose3 { Data : Vector7 }.

(** Exponential map.  The body is the generated block, one [let] per
    intermediate term.  The block is written over a division operator
    [div], so that a statement can speak of the denominators it is applied
    to: inside the section [x / y] is [div x y], and [FromTangent] is the
    block at the division of the scalars.  [(1.0/2.0)] is a literal. *)
Section ExponentialBlock.
  Variable div : Scalar -> Scalar -> Scalar.
  Declare Scope block_scope.
  Local Notation "x / y" := (div x y) : block_scope.
  Local Open Scope block_scope.

Definition FromTangent_with (vec : Vector6) (epsilon : Scalar) : Pose3 :=
  let _tmp0 := vec.[2] * vec.[2] in
  let _tmp1 := vec.[1] * vec.[1] in
  let _tmp2 := vec.[0] * vec.[0] in
  let _tmp3 := _tmp0 + _tmp1 + _tmp2 + (epsilon * epsilon) in
  let _tmp4 := sqrt _tmp3 in
  let _tmp5 := (1/2)%R * _tmp4 in
  let _tmp6 := sin _tmp5 / _tmp4 in
  let _tmp7 := (_tmp4 - sin _tmp4) / (_tmp3 * sqrt _tmp3) in
  let _tmp8 := _tmp7 * vec.[0] in
  let _tmp9 := _tmp8 * vec.[2] in
  let _tmp10 := (- cos _tmp4 + 1) / _tmp3 in
  let _tmp11 := _tmp10 * vec.[1] in
  let _tmp12 := _tmp8 * vec.[1] in
  let _tmp13 := _tmp10 * vec.[2] in
  let _tmp14 := - _tmp1 in
  let _tmp15 := - _tmp0 in
  let _tmp16 := _tmp7 * vec.[1] * vec.[2] in
  let _tmp17 := _tmp10 * vec.[0] in
  let _tmp18 := - _tmp2 in
  mkPose3 (Vec7
    (_tmp6 * vec.[0])
    (_tmp6 * vec.[1])
    (_tmp6 * vec.[2])
    (cos _tmp5)
    (vec.[3] * (_tmp7 * (_tmp14 + _tmp15) + 1) + vec.[4] * (_tmp12 - _tmp13)
       + vec.[5] * (_tmp11 + _tmp9))
    (vec.[3] * (_tmp12 + _tmp13) + vec.[4] * (_tmp7 * (_tmp15 + _tmp18) + 1)
       + vec.[5] * (_tmp16 - _tmp17))
    (vec.[3] * (- _tmp11 + _tmp9) + vec.[4] * (_tmp16 + _tmp17)
       + vec.[5] * (_tmp7 * (_tmp14 + _tmp18) + 1))).

End ExponentialBlock.

Definition FromTangent : Vector6 -> Scalar -> Pose3 := FromTangent_with Rdiv.

(** The denominators of the three divisions of [FromTangent], in the order
    of the block: of [_tmp6], of [_tmp7] and of [_tmp10]. *)
Definition FromTangent_denominators (vec : Vector6) (epsilon : Scalar)
    : list Scalar :=
  let _tmp0 := vec.[2] * vec.[2] in
  let _tmp1 := vec.[1] * vec.[1] in
  let _tmp2 := vec.[0] * vec.[0] in
  let _tmp3 := _tmp0 + _tmp1 + _tmp2 + (epsilon * epsilon) in
  let _tmp4 := sqrt _tmp3 in
  [_tmp4; _tmp3 * sqrt _tmp3; _tmp3].

(** Logarithm map.  The block takes the arc cosine as an argument, so that
    a statement can speak of the points where it is evaluated; [ToTangent]
    is the block at [std::acos]. *)
Section LogarithmBlocks.
  Variable acos : Scalar -> Scalar.

Definition ToTangent_with (a : Pose3) (epsilon : Scalar) : Vector6 :=
  let _a := Data a in
  let _tmp0 := Rmax epsilon (- (_a.[3] * _a.[3]) + 1) in
  let _tmp1 := acos (Rmax (epsilon - 1) (Rmin _a.[3] (- epsilon + 1))) in
  let _tmp2 := _tmp1 / sqrt _tmp0 in
  let _tmp3 := 2 * _tmp2 in
  let _tmp4 := 4 * (_tmp1 * _tmp1) / _tmp0 in
  let _tmp5 := (_a.[2] * _a.[2]) * _tmp4 in
  let _tmp6 := (_a.[1] * _a.[1]) * _tmp4 in
  let _tmp7 := (_a.[0] * _a.[0]) * _tmp4 in
  let _tmp8 := _tmp5 + _tmp6 + _tmp7 + epsilon in
  let _tmp9 := sqrt _tmp8 in
  let _tmp10 := 0.5 * _tmp9 in
  let _tmp11 := ((-1/2) * _tmp9 * cos _tmp10 / sin _tmp10 + 1) / _tmp8 in
  let _tmp12 := _a.[2] * _tmp11 * _tmp4 in
  let _tmp13 := _a.[0] * _tmp12 in
  let _tmp14 := 1 * _tmp2 in
  let _tmp15 := _a.[1] * _tmp14 in
  let _tmp16 := _a.[0] * _a.[1] * _tmp11 * _tmp4 in
  let _tmp17 := _a.[2] * _tmp14 in
  let _tmp18 := - _tmp6 in
  let _tmp19 := - _tmp5 in
  let _tmp20 := _a.[1] * _tmp12 in
  let _tmp21 := _a.[0] * _tmp14 in
  let _tmp22 := - _tmp7 in
  Vec6
    (_a.[0] * _tmp3)
    (_a.[1] * _tmp3)
    (_a.[2] * _tmp3)
    (_a.[4] * (_tmp11 * (_tmp18 + _tmp19) + 1) + _a.[5] * (_tmp16 + _tmp17)
       + _a.[6] * (_tmp13 - _tmp15))
    (_a.[4] * (_tmp16 - _tmp17) + _a.[5] * (_tmp11 * (_tmp19 + _tmp22) + 1)
       + _a.[6] * (_tmp20 + _tmp21))
    (_a.[4] * (_tmp13 + _tmp15) + _a.[5] * (_tmp20 - _tmp21)
       + _a.[6] * (_tmp11 * (_tmp18 + _tmp22) + 1)).

(** The value handed to the arc cosine by [ToTangent]. *)
Definition ToTangent_acos_argument (a : Pose3) (epsilon : Scalar) : Scalar :=
  let _a := Data a in
  Rmax (epsilon - 1) (Rmin _a.[3] (- epsilon + 1)).

Definition Retract (a : Pose3) (vec : Vector6) (epsilon : Scalar) : Pose3 :=
  let _a := Data a in
  let _tmp0 := vec.[2] * vec.[2] in
  let _tmp1 := vec.[1] * vec.[1] in
  let _tmp2 := vec.[0] * vec.[0] in
  let _tmp3 := _tmp0 + _tmp1 + _tmp2 + (epsilon * epsilon) in
  let _tmp4 := sqrt _tmp3 in
  let _tmp5 := (1/2) * _tmp4 in
  let _tmp6 := sin _tmp5 / _tmp4 in
  let _tmp7 := _tmp6 * vec.[2] in
  let _tmp8 := _tmp6 * vec.[1] in
  let _tmp9 := cos _tmp5 in
  let _tmp10 := _a.[3] * _tmp6 in
  let _tmp11 := _tmp6 * vec.[0] in
  let _tmp12 := 2 * _a.[1] in
  let _tmp13 := _a.[3] * _tmp12 in
  let _tmp14 := 2 * _a.[0] in
  let _tmp15 := _a.[2] * _tmp14 in
  let _tmp16 := - _tmp2 in
  let _tmp17 := - _tmp1 in
  let _tmp18 := (_tmp4 - sin _tmp4) / (_tmp3 * sqrt _tmp3) in
  let _tmp19 := _tmp18 * vec.[1] * vec.[2] in
  let _tmp20 := (- cos _tmp4 + 1) / _tmp3 in
  let _tmp21 := _tmp20 * vec.[0] in
  let _tmp22 := _tmp18 * vec.[0] in
  let _tmp23 := _tmp22 * vec.[2] in
  let _tmp24 := _tmp20 * vec.[1] in
  let _tmp25 := vec.[3] * (_tmp23 - _tmp24) + vec.[4] * (_tmp19 + _tmp21)
                + vec.[5] * (_tmp18 * (_tmp16 + _tmp17) + 1) in
  let _tmp26 := 2 * _a.[2] * _a.[3] in
  let _tmp27 := _a.[0] * _tmp12 in
  let _tmp28 := - _tmp0 in
  let _tmp29 := _tmp22 * vec.[1] in
  let _tmp30 := _tmp20 * vec.[2] in
  let _tmp31 := vec.[3] * (_tmp29 + _tmp30)
                + vec.[4] * (_tmp18 * (_tmp16 + _tmp28) + 1)
                + vec.[5] * (_tmp19 - _tmp21) in
  let _tmp32 := -2 * (_a.[2] * _a.[2]) in
  let _tmp33 := -2 * (_a.[1] * _a.[1]) + 1 in
  let _tmp34 := vec.[3] * (_tmp18 * (_tmp17 + _tmp28) + 1)
                + vec.[4] * (_tmp29 - _tmp30) + vec.[5] * (_tmp23 + _tmp24) in
  let _tmp35 := _a.[3] * _tmp14 in
  let _tmp36 := _a.[2] * _tmp12 in
  let _tmp37 := -2 * (_a.[0] * _a.[0]) in
  mkPose3 (Vec7
    (_a.[0] * _tmp9 + _a.[1] * _tmp7 - _a.[2] * _tmp8 + _tmp10 * vec.[0])
    (- _a.[0] * _tmp7 + _a.[1] * _tmp9 + _a.[2] * _tmp11 + _a.[3] * _tmp8)
    (_a.[0] * _tmp8 - _a.[1] * _tmp11 + _a.[2] * _tmp9 + _tmp10 * vec.[2])
    (- _a.[0] * _tmp11 - _a.[1] * _tmp8 - _a.[2] * _tmp7 + _a.[3] * _tmp9)
    (_a.[4] + _tmp25 * (_tmp13 + _tmp15) + _tmp31 * (- _tmp26 + _tmp27)
       + _tmp34 * (_tmp32 + _tmp33))
    (_a.[5] + _tmp25 * (- _tmp35 + _tmp36) + _tmp31 * (_tmp32 + _tmp37 + 1)
       + _tmp34 * (_tmp26 + _tmp27))
    (_a.[6] + _tmp25 * (_tmp33 + _tmp37) + _tmp31 * (_tmp35 + _tmp36)
       + _tmp34 * (- _tmp13 + _tmp15))).

(** Like [ToTangent], over the arc cosine of the section. *)
Definition LocalCoordinates_with (a b : Pose3) (epsilon : Scalar) : Vector6 :=
  let _a := Data a in
  let _b := Data b in
  let _tmp0 := - _a.[0] * _b.[3] - _a.[1] * _b.[2] + _a.[2] * _b.[1]
               + _a.[3] * _b.[0] in
  let _tmp1 := _a.[0] * _b.[0] + _a.[1] * _b.[1] + _a.[2] * _b.[2]
               + _a.[3] * _b.[3] in
  let _tmp2 := acos (Rmax (epsilon - 1) (Rmin _tmp1 (- epsilon + 1))) in
  let _tmp3 := Rmax epsilon (- (_tmp1 * _tmp1) + 1) in
  let _tmp4 := _tmp2 / sqrt _tmp3 in
  let _tmp5 := 2 * _tmp4 in
  let _tmp6 := _a.[0] * _b.[2] - _a.[1] * _b.[3] - _a.[2] * _b.[0]
               + _a.[3] * _b.[1] in
  let _tmp7 := - _a.[0] * _b.[1] + _a.[1] * _b.[0] - _a.[2] * _b.[3]
               + _a.[3] * _b.[2] in
  let _tmp8 := -2 * (_a.[0] * _a.[0]) in
  let _tmp9 := -2 * (_a.[1] * _a.[1]) + 1 in
  let _tmp10 := _tmp8 + _tmp9 in
  let _tmp11 := 2 * _a.[0] in
  let _tmp12 := _a.[3] * _tmp11 in
  let _tmp13 := 2 * _a.[2] in
  let _tmp14 := _a.[1] * _tmp13 in
  let _tmp15 := - _tmp12 + _tmp14 in
  let _tmp16 := 2 * _a.[1] * _a.[3] in
  let _tmp17 := _a.[2] * _tmp11 in
  let _tmp18 := _tmp16 + _tmp17 in
  let _tmp19 := - _a.[4] * _tmp18 - _a.[5] * _tmp15 - _a.[6] * _tmp10
                + _b.[4] * _tmp18 + _b.[5] * _tmp15 + _b.[6] * _tmp10 in
  let _tmp20 := 4 * (_tmp2 * _tmp2) / _tmp3 in
  let _tmp21 := _tmp20 * (_tmp7 * _tmp7) in
  let _tmp22 := _tmp20 * (_tmp6 * _tmp6) in
  let _tmp23 := (_tmp0 * _tmp0) * _tmp20 in
  let _tmp24 := _tmp21 + _tmp22 + _tmp23 + epsilon in
  let _tmp25 := sqrt _tmp24 in
  let _tmp26 := 0.5 * _tmp25 in
  let _tmp27 := ((-1/2) * _tmp25 * cos _tmp26 / sin _tmp26 + 1) / _tmp24 in
  let _tmp28 := _tmp0 * _tmp20 * _tmp27 in
  let _tmp29 := _tmp28 * _tmp7 in
  let _tmp30 := 1 * _tmp4 in
  let _tmp31 := _tmp30 * _tmp6 in
  let _tmp32 := _tmp12 + _tmp14 in
  let _tmp33 := -2 * (_a.[2] * _a.[2]) in
  let _tmp34 := _tmp33 + _tmp8 + 1 in
  let _tmp35 := _a.[3] * _tmp13 in
  let _tmp36 := _a.[1] * _tmp11 in
  let _tmp37 := - _tmp35 + _tmp36 in
  let _tmp38 := - _a.[4] * _tmp37 - _a.[5] * _tmp34 - _a.[6] * _tmp32
                + _b.[4] * _tmp37 + _b.[5] * _tmp34 + _b.[6] * _tmp32 in
  let _tmp39 := _tmp28 * _tmp6 in
  let _tmp40 := _tmp30 * _tmp7 in
  let _tmp41 := - _tmp16 + _tmp17 in
  let _tmp42 := _tmp35 + _tmp36 in
  let _tmp43 := _tmp33 + _tmp9 in
  let _tmp44 := - _a.[4] * _tmp43 - _a.[5] * _tmp42 - _a.[6] * _tmp41
                + _b.[4] * _tmp43 + _b.[5] * _tmp42 + _b.[6] * _tmp41 in
  let _tmp45 := - _tmp22 in
  let _tmp46 := - _tmp21 in
  let _tmp47 := _tmp20 * _tmp27 * _tmp6 * _tmp7 in
  let _tmp48 := _tmp0 * _tmp30 in
  let _tmp49 := - _tmp23 in
  Vec6
    (_tmp0 * _tmp5)
    (_tmp5 * _tmp6)
    (_tmp5 * _tmp7)
    (_tmp19 * (_tmp29 - _tmp31) + _tmp38 * (_tmp39 + _tmp40)
       + _tmp44 * (_tmp27 * (_tmp45 + _tmp46) + 1))
    (_tmp19 * (_tmp47 + _tmp48) + _tmp38 * (_tmp27 * (_tmp46 + _tmp49) + 1)
       + _tmp44 * (_tmp39 - _tmp40))
    (_tmp19 * (_tmp27 * (_tmp45 + _tmp49) + 1) + _tmp38 * (_tmp47 - _tmp48)
       + _tmp44 * (_tmp29 + _tmp31)).

(** The value handed to the arc cosine by [LocalCoordinates]. *)
Definition LocalCoordinates_acos_argument (a b : Pose3) (epsilon : Scalar)
    : Scalar :=
  let _a := Data a in
  let _b := Data b in
  let _tmp1 := _a.[0] * _b.[0] + _a.[1] * _b.[1] + _a.[2] * _b.[2]
               + _a.[3] * _b.[3] in
  Rmax (epsilon - 1) (Rmin _tmp1 (- epsilon + 1)).

End LogarithmBlocks.

Definition ToTangent : Pose3 -> Scalar -> Vector6 := ToTangent_with acos.

Definition LocalCoordinates : Pose3 -> Pose3 -> Scalar -> Vector6 :=
  LocalCoordinates_with acos.

End pose3.

(** ** Group operations of geo::Pose3

  [Compose], [Inverse] and [Between] live in the group-operations unit of
  the Pose3 type, next to the Lie-group unit above. *)

Module group_ops.
Import pose3.

(** Modelled from the spec: the rotation block [qx, qy, qz, qw] of a Pose3
    storage vector (section 6, flat vector layout). *)
Definition rotation (a : Pose3) : Vector4 :=
  Vec4 (Data a).[0] (Data a).[1] (Data a).[2] (Data a).[3].

(** Modelled from the spec: the translation block [tx, ty, tz] of a Pose3
    storage vector (section 6, flat vector layout). *)
Definition position (a : Pose3) : Vector3 :=
  Vec3 (Data a).[4] (Data a).[5] (Data a).[6].

(** Modelled from the spec: a Pose3 is a rotation concatenated with a
    translation (section 3). *)
Definition from_parts (q : Vector4) (t : Vector3) : Pose3 :=
  mkPose3 (Vec7 q.[0] q.[1] q.[2] q.[3] t.[0] t.[1] t.[2]).

(** Modelled from the spec: "rotation composition is the standard
    quaternion product" (section 4.2); the Hamilton product in the
    [x, y, z, w] layout. *)
Definition quat_mul (p q : Vector4) : Vector4 :=
  Vec4
    (p.[3] * q.[0] + p.[0] * q.[3] + p.[1] * q.[2] - p.[2] * q.[1])
    (p.[3] * q.[1] - p.[0] * q.[2] + p.[1] * q.[3] + p.[2] * q.[0])
    (p.[3] * q.[2] + p.[0] * q.[1] - p.[1] * q.[0] + p.[2] * q.[3])
    (p.[3] * q.[3] - p.[0] * q.[0] - p.[1] * q.[1] - p.[2] * q.[2]).

(** Modelled from the spec: the inverse of a rotation stored as a unit
    quaternion, its conjugate (section 4.2, [Inverse]; storage is trusted
    and not renormalised, section 3). *)
Definition quat_conj (q : Vector4) : Vector4 :=
  Vec4 (- q.[0]) (- q.[1]) (- q.[2]) q.[3].

(** Modelled from the spec: a rotation applied to a vector ("rotates the
    right-hand translation by the left rotation", section 4.2), by the
    rotation matrix of a unit quaternion in closed form. *)
Definition rotate (q : Vector4) (v : Vector3) : Vector3 :=
  let x := q.[0] in
  let y := q.[1] in
  let z := q.[2] in
  let w := q.[3] in
  Vec3
    ((1 - 2 * (y * y) - 2 * (z * z)) * v.[0] + (2 * (x * y) - 2 * (z * w)) * v.[1]
       + (2 * (x * z) + 2 * (y * w)) * v.[2])
    ((2 * (x * y) + 2 * (z * w)) * v.[0] + (1 - 2 * (x * x) - 2 * (z * z)) * v.[1]
       + (2 * (y * z) - 2 * (x * w)) * v.[2])
    ((2 * (x * z) - 2 * (y * w)) * v.[0] + (2 * (y * z) + 2 * (x * w)) * v.[1]
       + (1 - 2 * (x * x) - 2 * (y * y)) * v.[2]).

(** Modelled from the spec: "adds translations" (section 4.2). *)
Definition vadd (u v : Vector3) : Vector3 :=
  Vec3 (u.[0] + v.[0]) (u.[1] + v.[1]) (u.[2] + v.[2]).

(** Modelled from the spec: the opposite translation, for [Inverse]
    (section 4.2). *)
Definition vneg (v : Vector3) : Vector3 :=
  Vec3 (- v.[0]) (- v.[1]) (- v.[2]).

(** Modelled from the spec: [Identity()] of geo::Pose3 (section 4.2): the
    unit quaternion and the zero translation. *)
Definition Identity : Pose3 := mkPose3 (Vec7 0 0 0 1 0 0 0).

(** Modelled from the spec: [Compose(a, b)] of geo::Pose3, whose
    group-operations unit is not among the sources: "pose composition
    rotates the right-hand translation by the left rotation and adds
    translations" (section 4.2). *)
Definition Compose (a b : Pose3) : Pose3 :=
  from_parts (quat_mul (rotation a) (rotation b))
             (vadd (position a) (rotate (rotation a) (position b))).

(** Modelled from the spec: [Inverse(a)] of geo::Pose3, whose
    group-operations unit is not among the sources: the pose that composes
    with [a] to the identity (section 4.2): the inverse rotation, and the
    translation rotated back and negated. *)
Definition Inverse (a : Pose3) : Pose3 :=
  from_parts (quat_conj (rotation a))
             (vneg (rotate (quat_conj (rotation a)) (position a))).

(** Modelled from the spec: "derived
    [Between(a,b) = Compose(Inverse(a), b)]" (section 4.2). *)
Definition Between (a b : Pose3) : Pose3 := Compose (Inverse a) b.

End group_ops.

(** ** The round trip ToTangent after FromTangent, in closed form

    For a tangent vector [(w0, w1, w2, u0, u1, u2)], where the clamp and the
    guard of the logarithm are inactive the round trip returns the rotation
    block unchanged and the translation block [u + A (w x u) + B (w x (w x
    u))], with [A] and [B] built from the coefficients of the two blocks:
    [coef_b], [coef_c] are [_tmp10], [_tmp7] of [FromTangent] and [coef_d]
    is [_tmp11] of [ToTangent]. *)

Module round_trip.
Section ClosedForm.
Variables w0 w1 w2 u0 u1 u2 : Scalar.

Definition rot_norm2 : Scalar := w2 * w2 + w1 * w1 + w0 * w0.

Definition coef_b (e : Scalar) : Scalar :=
  (- cos (sqrt (rot_norm2 + e * e)) + 1) / (rot_norm2 + e * e).

Definition coef_c (e : Scalar) : Scalar :=
  (sqrt (rot_norm2 + e * e) - sin (sqrt (rot_norm2 + e * e)))
  / ((rot_norm2 + e * e) * sqrt (rot_norm2 + e * e)).

Definition coef_d (e : Scalar) : Scalar :=
  ((-1/2) * sqrt (rot_norm2 + e) * cos (0.5 * sqrt (rot_norm2 + e))
     / sin (0.5 * sqrt (rot_norm2 + e)) + 1) / (rot_norm2 + e).

Definition drift_cross (e : Scalar) : Scalar :=
  coef_b e - 1 / 2 - rot_norm2 * (coef_d e * coef_b e - coef_c e / 2).

Definition drift_cross2 (e : Scalar) : Scalar :=
  coef_c e - coef_b e / 2 + coef_d e - rot_norm2 * (coef_d e * coef_c e).

Definition cross0 : Scalar := w1 * u2 - w2 * u1.
Definition cross1 : Scalar := w2 * u0 - w0 * u2.
Definition cross2 : Scalar := w0 * u1 - w1 * u0.

Definition translation0 (e : Scalar) : Scalar :=
  u0 + drift_cross e * cross0 + drift_cross2 e * (w1 * cross2 - w2 * cross1).

Definition translation1 (e : Scalar) : Scalar :=
  u1 + drift_cross e * cross1 + drift_cross2 e * (w2 * cross0 - w0 * cross2).

Definition translation2 (e : Scalar) : Scalar :=
  u2 + drift_cross e * cross2 + drift_cross2 e * (w0 * cross1 - w1 * cross0).

End ClosedForm.
End round_trip.

(** ** The denominators of the Pose3 blocks

    The logarithm blocks divide four times each: by [sqrt (_tmp0)],
    [_tmp0], [sin (_tmp10)] and [_tmp8] in [ToTangent] (lines 59, 61, 68),
    by [sqrt (_tmp3)], [_tmp3], [sin (_tmp26)] and [_tmp24] in
    [LocalCoordinates] (lines 162, 178, 185).  [Retract] divides by the
    three denominators of [FromTangent].  Every square root of the blocks
    is taken of one of these denominators, so where they are positive the
    square roots are defined too. *)

Module pose3_domain.
Import pose3.

(** Lines 105, 117 and 119 of [Retract]: the denominators of [_tmp6],
    [_tmp18] and [_tmp20]. *)
Definition Retract_denominators (a : Pose3) (vec : Vector6)
    (epsilon : Scalar) : list Scalar :=
  let _tmp0 := vec.[2] * vec.[2] in
  let _tmp1 := vec.[1] * vec.[1] in
  let _tmp2 := vec.[0] * vec.[0] in
  let _tmp3 := _tmp0 + _tmp1 + _tmp2 + (epsilon * epsilon) in
  let _tmp4 := sqrt _tmp3 in
  [_tmp4; _tmp3 * sqrt _tmp3; _tmp3].

Definition ToTangent_denominators (a : Pose3) (epsilon : Scalar)
    : list Scalar :=
  let _a := Data a in
  let _tmp0 := Rmax epsilon (- (_a.[3] * _a.[3]) + 1) in
  let _tmp1 := acos (Rmax (epsilon - 1) (Rmin _a.[3] (- epsilon + 1))) in
  let _tmp4 := 4 * (_tmp1 * _tmp1) / _tmp0 in
  let _tmp5 := (_a.[2] * _a.[2]) * _tmp4 in
  let _tmp6 := (_a.[1] * _a.[1]) * _tmp4 in
  let _tmp7 := (_a.[0] * _a.[0]) * _tmp4 in
  let _tmp8 := _tmp5 + _tmp6 + _tmp7 + epsilon in
  let _tmp9 := sqrt _tmp8 in
  let _tmp10 := 0.5 * _tmp9 in
  [sqrt _tmp0; _tmp0; sin _tmp10; _tmp8].

Definition LocalCoordinates_denominators (a b : Pose3) (epsilon : Scalar)
    : list Scalar :=
  let _a := Data a in
  let _b := Data b in
  let _tmp0 := - _a.[0] * _b.[3] - _a.[1] * _b.[2] + _a.[2] * _b.[1]
               + _a.[3] * _b.[0] in
  let _tmp1 := _a.[0] * _b.[0] + _a.[1] * _b.[1] + _a.[2] * _b.[2]
               + _a.[3] * _b.[3] in
  let _tmp2 := acos (Rmax (epsilon - 1) (Rmin _tmp1 (- epsilon + 1))) in
  let _tmp3 := Rmax epsilon (- (_tmp1 * _tmp1) + 1) in
  let _tmp6 := _a.[0] * _b.[2] - _a.[1] * _b.[3] - _a.[2] * _b.[0]
               + _a.[3] * _b.[1] in
  let _tmp7 := - _a.[0] * _b.[1] + _a.[1] * _b.[0] - _a.[2] * _b.[3]
               + _a.[3] * _b.[2] in
  let _tmp20 := 4 * (_tmp2 * _tmp2) / _tmp3 in
  let _tmp21 := _tmp20 * (_tmp7 * _tmp7) in
  let _tmp22 := _tmp20 * (_tmp6 * _tmp6) in
  let _tmp23 := (_tmp0 * _tmp0) * _tmp20 in
  let _tmp24 := _tmp21 + _tmp22 + _tmp23 + epsilon in
  let _tmp25 := sqrt _tmp24 in
  let _tmp26 := 0.5 * _tmp25 in
  [sqrt _tmp3; _tmp3; sin _tmp26; _tmp24].

End pose3_domain.

(** ** The denominators of FromTangent at [Scalar = double]

    The source instantiates the blocks at [double] and [float] only.  The
    three denominators of [FromTangent] use products, sums and a square
    root, which the binary64 numbers of the kernel provide with the IEEE
    rounding of the compiled code. *)

Module pose3_double.
Import PrimFloat.
Local Open Scope float_scope.

Definition FromTangent_denominators (v0 v1 v2 epsilon : float) : list float :=
  let _tmp0 := v2 * v2 in
  let _tmp1 := v1 * v1 in
  let _tmp2 := v0 * v0 in
  let _tmp3 := _tmp0 + _tmp1 + _tmp2 + (epsilon * epsilon) in
  let _tmp4 := sqrt _tmp3 in
  [_tmp4; _tmp3 * sqrt _tmp3; _tmp3].

(** [2^-600] and [2^-400], two non-zero doubles. *)
Definition eps_600 : float := 0x1p-600.
Definition eps_400 : float := 0x1p-400.

End pose3_double.

(** ** The range of [int]

    [image_size[i] - 1] in [InView] is [int] arithmetic: it is defined for
    every [int] above the least one. *)

Module c_int.

Definition int_min : Z := (- 2 ^ 31)%Z.
Definition int_max : Z := (2 ^ 31 - 1)%Z.

(** An [int] whose predecessor is an [int]. *)
Definition has_predecessor (n : Z) : Prop := (int_min < n <= int_max)%Z.

End c_int.

(** ** sym::Pose2 (gen/cpp/sym/pose2.cc) *)

Module sym.

(** [sym::Rot2<Scalar>]: the unit complex number [cos, sin] behind it. *)
Record Rot2 : Type := mkRot2 { Rot2_Data : Vector2 }.

(** [sym::Pose2<Scalar>]: the storage [rotation(2), translation(2)] behind
    [Data()]. *)
Record Pose2 : Type := mkPose2 { Data : Vector4 }.

Definition Rotation (self : Pose2) : Rot2 :=
  let _self := Data self in
  mkRot2 (Vec2 _self.[0] _self.[1]).

Definition Position (self : Pose2) : Vector2 :=
  let _self := Data self in
  Vec2 _self.[2] _self.[3].

Definition ComposeWithPoint (self : Pose2) (right : Vector2) : Vector2 :=
  let _self := Data self in
  Vec2
    (_self.[0] * right.[0] - _self.[1] * right.[1] + _self.[2])
    (_self.[0] * right.[1] + _self.[1] * right.[0] + _self.[3]).

Definition InverseCompose (self : Pose2) (point : Vector2) : Vector2 :=
  let _self := Data self in
  Vec2
    (- _self.[0] * _self.[2] + _self.[0] * point.[0] - _self.[1] * _self.[3]
       + _self.[1] * point.[1])
    (- _self.[0] * _self.[3] + _self.[0] * point.[1] + _self.[1] * _self.[2]
       - _self.[1] * point.[0]).

(** The entries are listed by row; the source assigns them by column. *)
Definition ToHomogenousMatrix (self : Pose2) : Matrix33 :=
  let _self := Data self in
  Mat33 _self.[0] (- _self.[1]) _self.[2]
        _self.[1] _self.[0]     _self.[3]
        0         0             1.

End sym.

(** ** cam::Camera (gen/cpp/cam/camera.h) *)

Module cam.

(** What [Camera<CameraCalType>] asks of its calibration type.  A method
    returns its numeric result together with the validity it stores through
    a non-null [is_valid]. *)
Class CameraCalType (C : Type) : Type := {
  PixelFromCameraPoint : C -> Vector3 -> Scalar -> Vector2 * Scalar;
  CameraRayFromPixel : C -> Vector2 -> Scalar -> Vector3 * Scalar
}.

Record Camera (C : Type) : Type := mkCamera {
  calibration_ : C;
  image_size_ : Vector2i
}.
Arguments mkCamera {C} _ _.
Arguments calibration_ {C} _.
Arguments image_size_ {C} _.

(** The constructor's default image size. *)
Definition default_image_size : Vector2i := Vec2i (-1) (-1).

Module Camera.
Section Methods.
Context {C : Type} `{CameraCalType C}.

(** Image sizes are positive ints where [InView] is reached from
    [MaybeCheckInView], so [image_size[0] - 1] does not overflow; the
    comparison converts it to [Scalar]. *)
Definition InView (pixel : Vector2) (image_size : Vector2i) : Scalar :=
  let x_in_view :=
    Rgeb pixel.[0] 0 && Rleb pixel.[0] (IZR (image_size.[0] - 1)) in
  let y_in_view :=
    Rgeb pixel.[1] 0 && Rleb pixel.[1] (IZR (image_size.[1] - 1)) in
  if x_in_view && y_in_view then 1 else 0.

Definition MaybeCheckInView (self : Camera C) (pixel : Vector2) : Scalar :=
  if ((image_size_ self).[0] <=? 0)%Z || ((image_size_ self).[1] <=? 0)%Z
  then 1
  else InView pixel (image_size_ self).

(** [is_valid] tells whether the caller's pointer is non-null; the second
    component of the result is what the pointer holds on return. *)
Definition PixelFromCameraPoint (self : Camera C) (point : Vector3)
    (epsilon : Scalar) (is_valid : bool) : Vector2 * option Scalar :=
  let '(pixel, valid) :=
    PixelFromCameraPoint (calibration_ self) point epsilon in
  (pixel,
   if is_valid then Some (valid * MaybeCheckInView self pixel) else None).

Definition CameraRayFromPixel (self : Camera C) (pixel : Vector2)
    (epsilon : Scalar) (is_valid : bool) : Vector3 * option Scalar :=
  let '(camera_ray, valid) :=
    CameraRayFromPixel (calibration_ self) pixel epsilon in
  (camera_ray,
   if is_valid then Some (valid * MaybeCheckInView self pixel) else None).

Definition Calibration (self : Camera C) : C := calibration_ self.

Definition ImageSize (self : Camera C) : Vector2i := image_size_ self.

End Methods.
End Camera.

End cam.

(** ** The words of the spec about the viewport *)

Module camera_spec.
Import cam.

(** The in-frame condition, as section 4.5 words it. *)
Definition in_frame (image_size : Vector2i) (pixel : Vector2) : Prop :=
  (0 <= pixel.[0] <= IZR (image_size.[0] - 1)) /\
  (0 <= pixel.[1] <= IZR (image_size.[1] - 1)).

(** The image size that switches the bounds check off. *)
Definition unbounded (image_size : Vector2i) : Prop :=
  (image_size.[0] <= 0)%Z \/ (image_size.[1] <= 0)%Z.

(** A calibration that answers every query with a stored pixel, ray and
    validity; it stands for any calibration model at one input. *)
#[export] Instance fixed_answer : CameraCalType (Vector2 * Vector3 * Scalar) := {
  PixelFromCameraPoint c _ _ := (fst (fst c), snd c);
  CameraRayFromPixel c _ _ := (snd (fst c), snd c)
}.

End camera_spec.

(** ** cam::ATANCameraCal (gen/cpp/cam/atan_camera_cal.h) *)

Module atan_camera_cal.

(** [DataVec = Eigen::Matrix<Scalar, 5, 1>], the parameters
    [fx, fy, cx, cy, omega]. *)
Record ATANCameraCal : Type := mkATANCameraCal { data_ : Vector5 }.

Definition Data (self : ATANCameraCal) : Vector5 := data_ self.

(** The Eigen operations [IsApprox] and [operator==] call. *)
Module DataVec.

Definition Zero : Vector5 := Vec5 0 0 0 0 0.

(** [operator==] of two vectors: every coefficient equal. *)
Definition eqb (u v : Vector5) : bool :=
  Reqb u.[0] v.[0] && Reqb u.[1] v.[1] && Reqb u.[2] v.[2]
  && Reqb u.[3] v.[3] && Reqb u.[4] v.[4].

Definition sub (u v : Vector5) : Vector5 :=
  Vec5 (u.[0] - v.[0]) (u.[1] - v.[1]) (u.[2] - v.[2]) (u.[3] - v.[3])
       (u.[4] - v.[4]).

(** [norm()]: the Euclidean norm. *)
Definition norm (v : Vector5) : Scalar :=
  sqrt (v.[0] * v.[0] + v.[1] * v.[1] + v.[2] * v.[2] + v.[3] * v.[3]
        + v.[4] * v.[4]).

(** [isApprox(other, prec)], by the Eigen documentation the source links:
    the norm of the difference is at most [prec] times the smaller of the
    two norms. *)
Definition isApprox (u v : Vector5) (prec : Scalar) : bool :=
  Rleb (norm (sub u v)) (prec * Rmin (norm u) (norm v)).

End DataVec.

Definition IsApprox (self b : ATANCameraCal) (tol : Scalar) : bool :=
  if DataVec.eqb (Data b) DataVec.Zero
  then Rltb (DataVec.norm (Data self)) tol
  else DataVec.isApprox (Data self) (Data b) tol.

Definition eq_op (self rhs : ATANCameraCal) : bool :=
  DataVec.eqb (data_ self) (Data rhs).

(** Modelled from the spec: [geo::StorageOps<ATANCameraCal>], whose header
    (ops/atan_camera_cal/storage_ops.h) is not among the sources: the fixed
    storage length of the type, 5 numbers (sections 4.1 and 6). *)
Definition StorageOps_StorageDim : nat := 5.

(** Modelled from the spec: [geo::StorageOps<ATANCameraCal>::ToStorage]:
    "flatten(value) -> vector" in the layout [fx, fy, cx, cy, omega]
    (sections 4.1 and 6). *)
Definition StorageOps_ToStorage (a : ATANCameraCal) : list Scalar :=
  [(Data a).[0]; (Data a).[1]; (Data a).[2]; (Data a).[3]; (Data a).[4]].

(** Modelled from the spec: [geo::StorageOps<ATANCameraCal>::FromStorage]:
    "unflatten(vector) -> value, defined only when the vector's length equals
    StorageDim" (section 4.1); [None] is the contract violation. *)
Definition StorageOps_FromStorage (vec : list Scalar) : option ATANCameraCal :=
  match vec with
  | [fx; fy; cx; cy; omega] => Some (mkATANCameraCal (Vec5 fx fy cx cy omega))
  | _ => None
  end.

Definition StorageDim : nat := StorageOps_StorageDim.

(** [vec] is an output only: what it held before the call is dropped. *)
Definition ToStorage (self : ATANCameraCal) : list Scalar :=
  StorageOps_ToStorage self.

Definition FromStorage (vec : list Scalar) : option ATANCameraCal :=
  StorageOps_FromStorage vec.

End atan_camera_cal.

(** ** StorageOps of the generated struct outputs_2_t
    (test data, codegen_multi_function/storage_ops/outputs_2_t.h) *)

Module std.

(** [std::vector::resize(n)]: keeps the first [n] elements and fills up with
    value-initialised ones. *)
Definition resize (n : nat) (v : list Scalar) : list Scalar :=
  firstn n v ++ repeat 0 (n - length v).

(** [v[i] = x].  Beyond the end the C++ is undefined; the vector is left as
    it is. *)
Fixpoint assign (i : nat) (x : Scalar) (v : list Scalar) : list Scalar :=
  match v, i with
  | [], _ => []
  | _ :: tl, O => x :: tl
  | hd :: tl, S j => hd :: assign j x tl
  end.

End std.

Module codegen_multi_function.

(** The struct the storage operations read and write: one field, [foo]. *)
Record outputs_2_t : Type := mk_outputs_2_t { foo : Scalar }.

Module StorageOps.

Definition StorageDim : nat := 1.

(** [vec] is the caller's vector before the call; the result is the vector
    after it. *)
Definition ToStorage (value : outputs_2_t) (vec : list Scalar) : list Scalar :=
  let v := std.resize 1 vec in
  std.assign 0 (foo value) v.

(** [out] is the caller's struct before the call.  [elements[0]] of an empty
    container is undefined in the C++: [None]. *)
Definition FromStorage (elements : list Scalar) (out : outputs_2_t)
    : option outputs_2_t :=
  match nth_error elements 0 with
  | Some e => Some (mk_outputs_2_t e)
  | None => None
  end.

End StorageOps.
End codegen_multi_function.

(** ** The generated function CodegenMultiFunctionTest1
    (test data, codegen_multi_function_test1.h) *)

Module codegen_multi_function_ns.

(** [Eigen::Matrix<Scalar, 9, 1>]. *)
Inductive Vector9 : Type := Vec9 (e0 e1 e2 e3 e4 e5 e6 e7 e8 : Scalar).

#[export] Instance Indexed_Vector9 : Indexed Vector9 Scalar :=
  fun v i => match v, i with
             | Vec9 e0 _ _ _ _ _ _ _ _, 0%nat => e0
             | Vec9 _ e1 _ _ _ _ _ _ _, 1%nat => e1
             | Vec9 _ _ e2 _ _ _ _ _ _, 2%nat => e2
             | Vec9 _ _ _ e3 _ _ _ _ _, 3%nat => e3
             | Vec9 _ _ _ _ e4 _ _ _ _, 4%nat => e4
             | Vec9 _ _ _ _ _ e5 _ _ _, 5%nat => e5
             | Vec9 _ _ _ _ _ _ e6 _ _, 6%nat => e6
             | Vec9 _ _ _ _ _ _ _ e7 _, 7%nat => e7
             | Vec9 _ _ _ _ _ _ _ _ e8, _ => e8
             end.

(** The constructor of a 9-vector from [inputs_array.data()]: it reads nine
    scalars; on a shorter array the read is out of bounds, [None]. *)
Definition Vector9_of_data (data : list Scalar) : option Vector9 :=
  match data with
  | e0 :: e1 :: e2 :: e3 :: e4 :: e5 :: e6 :: e7 :: e8 :: _ =>
      Some (Vec9 e0 e1 e2 e3 e4 e5 e6 e7 e8)
  | _ => None
  end.

Section Function.
(** The structs [inputs_t], [outputs_1_t] and their storage operations are
    declared in headers that are not among the sources; the function is
    read over them. *)
Variables inputs_t outputs_1_t : Type.
Variable ToStorage_inputs_t : inputs_t -> list Scalar.
Variable FromStorage_outputs_1_t : Vector2 -> outputs_1_t -> outputs_1_t.

(** [outputs_1] is the caller's struct before the call (the pointer is
    asserted non-null); the result is the struct after it. *)
Definition CodegenMultiFunctionTest1 (inputs : inputs_t)
    (outputs_1 : outputs_1_t) : option outputs_1_t :=
  let inputs_array := ToStorage_inputs_t inputs in
  match Vector9_of_data inputs_array with
  | None => None
  | Some _inputs =>
      let _tmp0 := _inputs.[0] * _inputs.[0] in
      let _outputs_1 :=
        Vec2 (_inputs.[5] + _tmp0) (_inputs.[6] + _tmp0 + sin _inputs.[1]) in
      Some (FromStorage_outputs_1_t _outputs_1 outputs_1)
  end.

End Function.
End codegen_multi_function_ns.

(** ** The message type states_t
    (test data, lcmtypes/codegen_python_test/states_t.hpp) *)

Module codegen_python_test.

(** The functions a [__lcm_hash_ptr] can point to: the [getHash] of this
    type and of any other type. *)
Inductive hash_fn : Type :=
  | states_t_getHash
  | other_getHash (id : nat).

Definition hash_fn_eqb (f g : hash_fn) : bool :=
  match f, g with
  | states_t_getHash, states_t_getHash => true
  | other_getHash i, other_getHash j => Nat.eqb i j
  | _, _ => false
  end.

(** [uint64_t] arithmetic, and the conversion to [int64_t]. *)
Definition uint64_max : Z := 2 ^ 64.
Definition uint64_add (a b : Z) : Z := ((a + b) mod uint64_max)%Z.
Definition uint64_shl (a n : Z) : Z := (Z.shiftl a n mod uint64_max)%Z.
Definition to_int64 (u : Z) : Z :=
  (if u <? 2 ^ 63 then u else u - uint64_max)%Z.

Section Message.
(** The LCM core ([lcm_coretypes.h]) and the member type
    [eigen_lcm::Vector2d] are not among the sources; the message is read
    over them.  A buffer operation returns the buffer after the call with
    its length code; a decoder returns the decoded value with its length
    code. *)
Variable buffer : Type.
Variable Vector2d : Type.
Variable int64_t_encode_array : buffer -> Z -> Z -> Z -> buffer * Z.
Variable int64_t_decode_array : buffer -> Z -> Z -> Z * Z.
Variable Vector2d_encodeNoHash : Vector2d -> buffer -> Z -> Z -> buffer * Z.
Variable Vector2d_decodeNoHash : Vector2d -> buffer -> Z -> Z -> Vector2d * Z.
Variable Vector2d_getEncodedSizeNoHash : Vector2d -> Z.
Variable Vector2d_computeHash : list hash_fn -> Z.
Variable Vector2d_eqb : Vector2d -> Vector2d -> bool.

Record states_t : Type := mk_states_t { p : Vector2d }.

(** The loop over the parent chain; the chain is the list of the functions
    it points to, [NULL] the empty list. *)
Fixpoint in_parents (fp : list hash_fn) : bool :=
  match fp with
  | [] => false
  | v :: parent =>
      if hash_fn_eqb v states_t_getHash then true else in_parents parent
  end.

Definition _computeHash (p : list hash_fn) : Z :=
  if in_parents p then 0%Z
  else
    let cp := states_t_getHash :: p in
    let hash := uint64_add 0x0012345678017000 (Vector2d_computeHash cp) in
    uint64_add (uint64_shl hash 1) (Z.land (Z.shiftr hash 63) 1).

Definition getHash : Z := to_int64 (_computeHash []).

Definition _encodeNoHash (self : states_t) (buf : buffer)
    (offset maxlen : Z) : buffer * Z :=
  let pos := 0%Z in
  let '(buf, tlen) :=
    Vector2d_encodeNoHash (p self) buf (offset + pos) (maxlen - pos) in
  if (tlen <? 0)%Z then (buf, tlen) else (buf, (pos + tlen)%Z).

Definition _decodeNoHash (self : states_t) (buf : buffer)
    (offset maxlen : Z) : states_t * Z :=
  let pos := 0%Z in
  let '(p', tlen) :=
    Vector2d_decodeNoHash (p self) buf (offset + pos) (maxlen - pos) in
  if (tlen <? 0)%Z then (mk_states_t p', tlen)
  else (mk_states_t p', (pos + tlen)%Z).

Definition _getEncodedSizeNoHash (self : states_t) : Z :=
  let enc_size := 0%Z in
  (enc_size + Vector2d_getEncodedSizeNoHash (p self))%Z.

Definition encode (self : states_t) (buf : buffer) (offset maxlen : Z)
    : buffer * Z :=
  let pos := 0%Z in
  let hash := getHash in
  let '(buf, tlen) :=
    int64_t_encode_array buf (offset + pos) (maxlen - pos) hash in
  if (tlen <? 0)%Z then (buf, tlen)
  else
    let pos := (pos + tlen)%Z in
    let '(buf, tlen) := _encodeNoHash self buf (offset + pos) (maxlen - pos) in
    if (tlen <? 0)%Z then (buf, tlen) else (buf, (pos + tlen)%Z).

Definition decode (self : states_t) (buf : buffer) (offset maxlen : Z)
    : states_t * Z :=
  let pos := 0%Z in
  let '(msg_hash, thislen) :=
    int64_t_decode_array buf (offset + pos) (maxlen - pos) in
  if (thislen <? 0)%Z then (self, thislen)
  else
    let pos := (pos + thislen)%Z in
    if negb (msg_hash =? getHash)%Z then (self, (-1)%Z)
    else
      let '(self, thislen) :=
        _decodeNoHash self buf (offset + pos) (maxlen - pos) in
      if (thislen <? 0)%Z then (self, thislen)
      else (self, (pos + thislen)%Z).

Definition getEncodedSize (self : states_t) : Z :=
  (8 + _getEncodedSizeNoHash self)%Z.

Definition eq_op (self other : states_t) : bool :=
  Vector2d_eqb (p self) (p other).

Definition ne_op (self other : states_t) : bool := negb (eq_op self other).

End Message.
End codegen_python_test.

(** * Proofs *)

(** ** Scalar comparisons *)

Lemma Rleb_true (x y : Scalar) : Rleb x y = true <-> x <= y.
Proof. unfold Rleb. destruct (Rle_dec x y); split; intros; congruence || tauto. Qed.

Lemma Rltb_true (x y : Scalar) : Rltb x y = true <-> x < y.
Proof. unfold Rltb. destruct (Rlt_dec x y); split; intros; congruence || tauto. Qed.

Lemma Rgeb_true (x y : Scalar) : Rgeb x y = true <-> x >= y.
Proof. unfold Rgeb. rewrite Rleb_true. split; lra. Qed.

Lemma Reqb_true (x y : Scalar) : Reqb x y = true <-> x = y.
Proof. unfold Reqb. destruct (Req_dec_T x y); split; intros; congruence || tauto. Qed.

(** ** Pose3 *)

Module pose3_facts.
Import pose3 group_ops pose3_domain.

(** Evaluates the blocks and the group operations down to scalar
    arithmetic, vector accesses included, in one pass. *)
Ltac unfold_blocks :=
  cbv [Retract FromTangent FromTangent_with ToTangent ToTangent_with
       LocalCoordinates LocalCoordinates_with FromTangent_denominators
       ToTangent_acos_argument LocalCoordinates_acos_argument
       Between Compose Inverse Identity from_parts quat_mul quat_conj rotate
       vadd vneg rotation position Data
       coeff Indexed_Vector3 Indexed_Vector4 Indexed_Vector6 Indexed_Vector7].

(** The same, with the lists of denominators. *)
Ltac unfold_domain :=
  cbv [Retract FromTangent FromTangent_with ToTangent ToTangent_with
       LocalCoordinates LocalCoordinates_with FromTangent_denominators
       ToTangent_denominators LocalCoordinates_denominators
       Retract_denominators
       ToTangent_acos_argument LocalCoordinates_acos_argument
       Between Compose Inverse Identity from_parts quat_mul quat_conj rotate
       vadd vneg rotation position Data
       coeff Indexed_Vector3 Indexed_Vector4 Indexed_Vector6 Indexed_Vector7].

(** The components of the relative pose, in the shape in which
    [LocalCoordinates] computes them. *)
Lemma Between_components (a0 a1 a2 a3 a4 a5 a6 b0 b1 b2 b3 b4 b5 b6 : Scalar) :
  Between (mkPose3 (Vec7 a0 a1 a2 a3 a4 a5 a6))
          (mkPose3 (Vec7 b0 b1 b2 b3 b4 b5 b6)) =
  mkPose3 (Vec7
    (- a0 * b3 - a1 * b2 + a2 * b1 + a3 * b0)
    (a0 * b2 - a1 * b3 - a2 * b0 + a3 * b1)
    (- a0 * b1 + a1 * b0 - a2 * b3 + a3 * b2)
    (a0 * b0 + a1 * b1 + a2 * b2 + a3 * b3)
    (- a4 * (-2 * (a2 * a2) + (-2 * (a1 * a1) + 1))
       - a5 * (a3 * (2 * a2) + a1 * (2 * a0))
       - a6 * (- (2 * a1 * a3) + a2 * (2 * a0))
       + b4 * (-2 * (a2 * a2) + (-2 * (a1 * a1) + 1))
       + b5 * (a3 * (2 * a2) + a1 * (2 * a0))
       + b6 * (- (2 * a1 * a3) + a2 * (2 * a0)))
    (- a4 * (- (a3 * (2 * a2)) + a1 * (2 * a0))
       - a5 * (-2 * (a2 * a2) + -2 * (a0 * a0) + 1)
       - a6 * (a3 * (2 * a0) + a1 * (2 * a2))
       + b4 * (- (a3 * (2 * a2)) + a1 * (2 * a0))
       + b5 * (-2 * (a2 * a2) + -2 * (a0 * a0) + 1)
       + b6 * (a3 * (2 * a0) + a1 * (2 * a2)))
    (- a4 * (2 * a1 * a3 + a2 * (2 * a0))
       - a5 * (- (a3 * (2 * a0)) + a1 * (2 * a2))
       - a6 * (-2 * (a0 * a0) + (-2 * (a1 * a1) + 1))
       + b4 * (2 * a1 * a3 + a2 * (2 * a0))
       + b5 * (- (a3 * (2 * a0)) + a1 * (2 * a2))
       + b6 * (-2 * (a0 * a0) + (-2 * (a1 * a1) + 1)))).
Proof.
  unfold_blocks.
  do 2 f_equal; ring.
Qed.

(** C1.  [Retract(a, v, eps)] is [Compose(a, FromTangent(v, eps))]: the
    fused block yields the quaternion product of the rotation of [a] with
    the rotation of the exponential, and the translation of [a] plus the
    rotation of [a] applied to the translation of the exponential, for
    every storage vector [a], tangent vector [v] and [eps]. *)
Theorem Retract_is_Compose_FromTangent (a : Pose3) (vec : Vector6)
    (epsilon : Scalar) :
  let e := FromTangent vec epsilon in
  Retract a vec epsilon = Compose a e /\
  Retract a vec epsilon =
    from_parts (quat_mul (rotation a) (rotation e))
               (vadd (position a) (rotate (rotation a) (position e))).
Proof.
  destruct a as [[a0 a1 a2 a3 a4 a5 a6]].
  destruct vec as [v0 v1 v2 v3 v4 v5].
  unfold_blocks.
  split; do 2 f_equal; ring.
Qed.

(** The two blocks agree on any relative pose, whatever the arc cosine. *)
Lemma LocalCoordinates_with_Between (acosf : Scalar -> Scalar) (a b : Pose3)
    (epsilon : Scalar) :
  LocalCoordinates_with acosf a b epsilon =
  ToTangent_with acosf (Between a b) epsilon.
Proof.
  destruct a as [[a0 a1 a2 a3 a4 a5 a6]].
  destruct b as [[b0 b1 b2 b3 b4 b5 b6]].
  rewrite Between_components.
  unfold_blocks.
  set (x := - a0 * b3 - a1 * b2 + a2 * b1 + a3 * b0).
  set (y := a0 * b2 - a1 * b3 - a2 * b0 + a3 * b1).
  set (z := - a0 * b1 + a1 * b0 - a2 * b3 + a3 * b2).
  set (w := a0 * b0 + a1 * b1 + a2 * b2 + a3 * b3).
  set (th := acosf (Rmax (epsilon - 1) (Rmin w (- epsilon + 1)))).
  set (s2 := Rmax epsilon (- (w * w) + 1)).
  set (k := 4 * (th * th) / s2).
  replace (k * (z * z) + k * (y * y) + x * x * k + epsilon)
    with (z * z * k + y * y * k + x * x * k + epsilon) by ring.
  f_equal; ring.
Qed.

(** C2.  [LocalCoordinates(a, b, eps)] is [ToTangent(Between(a, b), eps)]
    with [Between(a, b) = Compose(Inverse(a), b)]: the fused block yields
    the 6-vector of the logarithm map at the relative pose, for every pair
    of storage vectors and every [eps]. *)
Theorem LocalCoordinates_is_ToTangent_Between (a b : Pose3)
    (epsilon : Scalar) :
  LocalCoordinates a b epsilon = ToTangent (Between a b) epsilon /\
  Between a b = Compose (Inverse a) b.
Proof.
  split; [apply LocalCoordinates_with_Between | reflexivity].
Qed.

(** The modelled group operations satisfy the laws section 4.2 asks of
    them: the identity is neutral, and on a unit quaternion the inverse
    composes to the identity. *)
Lemma Compose_Identity_r (a : Pose3) : Compose a Identity = a.
Proof.
  destruct a as [[a0 a1 a2 a3 a4 a5 a6]].
  unfold_blocks.
  do 2 f_equal; ring.
Qed.

Lemma Compose_Identity_l (a : Pose3) : Compose Identity a = a.
Proof.
  destruct a as [[a0 a1 a2 a3 a4 a5 a6]].
  unfold_blocks.
  do 2 f_equal; ring.
Qed.

Lemma Compose_Inverse_r (a : Pose3) :
  (Data a).[0] * (Data a).[0] + (Data a).[1] * (Data a).[1]
    + (Data a).[2] * (Data a).[2] + (Data a).[3] * (Data a).[3] = 1 ->
  Compose a (Inverse a) = Identity.
Proof.
  destruct a as [[a0 a1 a2 a3 a4 a5 a6]].
  unfold_blocks.
  intros Hunit.
  do 2 f_equal; nsatz.
Qed.

(** On a unit quaternion the closed-form rotation of a vector is the
    conjugation [q v q*] of the pure quaternion [v]. *)
Lemma rotate_is_conjugation (q : Vector4) (v : Vector3) :
  q.[0] * q.[0] + q.[1] * q.[1] + q.[2] * q.[2] + q.[3] * q.[3] = 1 ->
  quat_mul (quat_mul q (Vec4 v.[0] v.[1] v.[2] 0)) (quat_conj q) =
  Vec4 (rotate q v).[0] (rotate q v).[1] (rotate q v).[2] 0.
Proof.
  destruct q as [x y z w], v as [v0 v1 v2].
  unfold_blocks.
  intros Hunit.
  f_equal; nsatz.
Qed.

(** The squared norm that [FromTangent] guards with [epsilon]. *)
Lemma guarded_square_norm_pos (v0 v1 v2 epsilon : Scalar) :
  epsilon <> 0 -> 0 < v2 * v2 + v1 * v1 + v0 * v0 + epsilon * epsilon.
Proof.
  intros He.
  assert (0 < epsilon * epsilon) by nra.
  nra.
Qed.




(** The clamp of the logarithm blocks. *)
Lemma clamp_bounds (x epsilon : Scalar) :
  0 < epsilon < 1 ->
  epsilon - 1 <= Rmax (epsilon - 1) (Rmin x (- epsilon + 1)) <= 1 - epsilon.
Proof.
  intros He.
  unfold Rmax, Rmin.
  destruct (Rle_dec x (- epsilon + 1));
    destruct (Rle_dec (epsilon - 1) _); lra.
Qed.

(** C6.  In [ToTangent] and in [LocalCoordinates], for every input and every
    [epsilon] with [0 < epsilon < 1], the value handed to the arc cosine lies
    in [[epsilon - 1, 1 - epsilon]], hence strictly inside [[-1, 1]],
    whatever the real component of the quaternion; and the blocks evaluate
    the arc cosine nowhere else: two functions that agree at that value give
    the same result. *)
Theorem acos_argument_clamped (a b : Pose3) (epsilon : Scalar) :
  0 < epsilon < 1 ->
  (let x := ToTangent_acos_argument a epsilon in
   epsilon - 1 <= x <= 1 - epsilon /\ -1 < x < 1 /\
   forall f g : Scalar -> Scalar,
     f x = g x -> ToTangent_with f a epsilon = ToTangent_with g a epsilon) /\
  (let y := LocalCoordinates_acos_argument a b epsilon in
   epsilon - 1 <= y <= 1 - epsilon /\ -1 < y < 1 /\
   forall f g : Scalar -> Scalar,
     f y = g y ->
     LocalCoordinates_with f a b epsilon = LocalCoordinates_with g a b epsilon).
Proof.
  intros He.
  destruct a as [[a0 a1 a2 a3 a4 a5 a6]].
  destruct b as [[b0 b1 b2 b3 b4 b5 b6]].
  split; intros x; subst x.
  - pose proof (clamp_bounds a3 epsilon He) as Hc.
    unfold_blocks.
    split; [exact Hc|]. split; [lra|].
    intros f g Hfg. rewrite Hfg. reflexivity.
  - pose proof (clamp_bounds (a0 * b0 + a1 * b1 + a2 * b2 + a3 * b3)
                  epsilon He) as Hc.
    unfold_blocks.
    split; [exact Hc|]. split; [lra|].
    intros f g Hfg. rewrite Hfg. reflexivity.
Qed.

(** The hypothesis of C6 holds at the identity pose with [epsilon = 1/2]. *)
Lemma acos_argument_clamped_witness :
  0 < 1/2 < 1 /\ -1 < ToTangent_acos_argument Identity (1/2) < 1.
Proof.
  split; [lra|].
  apply (acos_argument_clamped Identity Identity (1/2)); lra.
Defined.

(** *** The round trip ToTangent after FromTangent *)

Lemma Rlt_min_inv (x a b : Scalar) : x < Rmin a b -> x < a /\ x < b.
Proof.
  unfold Rmin. destruct (Rle_dec a b); lra.
Qed.

Lemma sqrt_half : sqrt (1 / 2) = 1 / sqrt 2.
Proof.
  assert (H2 : 0 < sqrt 2) by (apply sqrt_lt_R0; lra).
  assert (Hs : sqrt 2 * sqrt 2 = 2) by (apply sqrt_sqrt; lra).
  apply sqrt_lem_1.
  - lra.
  - apply Rlt_le, Rdiv_lt_0_compat; lra.
  - replace (1 / sqrt 2 * (1 / sqrt 2)) with (1 / (sqrt 2 * sqrt 2))
      by (field; lra).
    rewrite Hs. reflexivity.
Qed.

(** What continuity at 0 gives on the right of 0. *)
Lemma continuity_pt_right_of_0 (f : Scalar -> Scalar) :
  continuity_pt f 0 ->
  forall delta, 0 < delta ->
    exists alpha, 0 < alpha /\
      forall epsilon, 0 < epsilon < alpha -> Rabs (f epsilon - f 0) < delta.
Proof.
  intros Hc delta Hdelta.
  destruct (Hc delta Hdelta) as [alpha [Halpha H]].
  exists alpha. split; [lra|].
  intros epsilon He.
  apply (H epsilon). split.
  - split; [exact I | lra].
  - simpl. unfold R_dist. rewrite Rminus_0_r, Rabs_pos_eq; lra.
Qed.

(** A tangent vector without rotation block comes back exactly, whatever
    [epsilon]. *)
Lemma round_trip_pure_translation (u0 u1 u2 epsilon : Scalar) :
  ToTangent (FromTangent (Vec6 0 0 0 u0 u1 u2) epsilon) epsilon
  = Vec6 0 0 0 u0 u1 u2.
Proof.
  unfold_blocks.
  f_equal; ring.
Qed.

Section RoundTrip.
Import round_trip.
Variables w0 w1 w2 u0 u1 u2 : Scalar.

Local Abbreviation N := (rot_norm2 w0 w1 w2).
Local Abbreviation F0 := (translation0 w0 w1 w2 u0 u1 u2).
Local Abbreviation F1 := (translation1 w0 w1 w2 u0 u1 u2).
Local Abbreviation F2 := (translation2 w0 w1 w2 u0 u1 u2).

Ltac unfold_closed_form :=
  unfold translation0, translation1, translation2, drift_cross, drift_cross2,
    coef_b, coef_c, coef_d, cross0, cross1, cross2.

(** Where the clamp and the guard of the logarithm are inactive, the round
    trip is the closed form: the rotation block comes back exactly. *)
Lemma round_trip_regime (epsilon : Scalar) :
  let theta := sqrt (N + epsilon * epsilon) in
  0 < N -> 0 < epsilon ->
  theta <= 2 * PI ->
  epsilon - 1 <= cos (1 / 2 * theta) <= 1 - epsilon ->
  epsilon <= sin (1 / 2 * theta) * sin (1 / 2 * theta) ->
  ToTangent (FromTangent (Vec6 w0 w1 w2 u0 u1 u2) epsilon) epsilon =
  Vec6 w0 w1 w2 (F0 epsilon) (F1 epsilon) (F2 epsilon).
Proof.
  unfold_closed_form. unfold rot_norm2.
  unfold_blocks.
  set (s := w2 * w2 + w1 * w1 + w0 * w0 + epsilon * epsilon).
  intros HN He Hth Hcos Hsin.
  assert (Hs : 0 < s) by (unfold s; nra).
  assert (Hn : 0 < sqrt s) by (apply sqrt_lt_R0; exact Hs).
  set (h := 1 / 2 * sqrt s) in *.
  assert (Hh : 0 <= h <= PI) by (unfold h; lra).
  assert (Hsin0 : 0 <= sin h) by (apply sin_ge_0; lra).
  assert (Hsinpos : 0 < sin h) by nra.
  rewrite (Rmin_left (cos h) (- epsilon + 1)) by lra.
  rewrite (Rmax_right (epsilon - 1) (cos h)) by lra.
  rewrite (acos_cos h Hh).
  assert (Hid : - (cos h * cos h) + 1 = sin h * sin h).
  { pose proof (sin2_cos2 h) as H. unfold Rsqr in H. lra. }
  rewrite Hid.
  rewrite (Rmax_right epsilon (sin h * sin h)) by lra.
  rewrite (sqrt_square (sin h) Hsin0).
  set (sh := sin h) in *.
  set (th := sqrt s) in *.
  set (b := (- cos th + 1) / s).
  set (c := (th - sin th) / (s * th)).
  set (k4 := 4 * (h * h) / (sh * sh)).
  set (q0 := sh / th * w0).
  set (q1 := sh / th * w1).
  set (q2 := sh / th * w2).
  assert (Hq : q2 * q2 * k4 + q1 * q1 * k4 + q0 * q0 * k4 + epsilon
               = w2 * w2 + w1 * w1 + w0 * w0 + epsilon).
  { unfold q0, q1, q2, k4, h. field. split; lra. }
  rewrite Hq.
  set (p := w2 * w2 + w1 * w1 + w0 * w0 + epsilon).
  set (d := (-1 / 2 * sqrt p * cos (0.5 * sqrt p) / sin (0.5 * sqrt p) + 1)
            / p).
  clearbody b c d.
  unfold q0, q1, q2, k4, h.
  f_equal; field; split; lra.
Qed.

(** At [epsilon = 0] the two correction coefficients of the closed form
    vanish: the logarithm's translation matrix inverts the exponential's. *)
Lemma drift_at_0 :
  0 < N -> sin (0.5 * sqrt N) <> 0 ->
  drift_cross w0 w1 w2 0 = 0 /\ drift_cross2 w0 w1 w2 0 = 0.
Proof.
  intros HN Hsin.
  unfold drift_cross, drift_cross2, coef_b, coef_c, coef_d.
  replace (N + 0 * 0) with N by ring.
  replace (N + 0) with N by ring.
  assert (Hn : 0 < sqrt N) by (apply sqrt_lt_R0; exact HN).
  assert (HNn : N = sqrt N * sqrt N) by (symmetry; apply sqrt_sqrt; lra).
  set (n := sqrt N) in *.
  replace (cos n) with (cos (2 * (0.5 * n))) by (f_equal; lra).
  replace (sin n) with (sin (2 * (0.5 * n))) by (f_equal; lra).
  rewrite cos_2a, sin_2a.
  pose proof (sin2_cos2 (0.5 * n)) as Hsc. unfold Rsqr in Hsc.
  set (S := sin (0.5 * n)) in *.
  set (C := cos (0.5 * n)) in *.
  clearbody S C.
  rewrite HNn. clearbody n. clear HNn.
  assert (HC2 : C * C = 1 - S * S) by lra.
  split; (field_simplify_eq; [|repeat split; lra]); ring [HC2].
Qed.

Lemma translation_at_0 :
  0 < N -> sin (0.5 * sqrt N) <> 0 -> F0 0 = u0 /\ F1 0 = u1 /\ F2 0 = u2.
Proof.
  intros HN Hsin.
  destruct (drift_at_0 HN Hsin) as [HA HB].
  unfold translation0, translation1, translation2.
  rewrite HA, HB.
  repeat split; ring.
Qed.

Lemma translation_continuous :
  0 < N -> sin (0.5 * sqrt N) <> 0 ->
  continuity_pt F0 0 /\ continuity_pt F1 0 /\ continuity_pt F2 0.
Proof.
  intros HN Hsin.
  assert (Hn : 0 < sqrt N) by (apply sqrt_lt_R0; exact HN).
  unfold_closed_form.
  repeat split; reg;
    repeat (replace (N + 0 * 0) with N by ring);
    repeat (replace (N + 0) with N by ring);
    first [ lra | assumption | apply Rgt_not_eq; nra ].
Qed.

(** Below a rotation norm of [2 PI], every small enough [epsilon] leaves
    the clamp and the guard of the logarithm inactive. *)
Lemma regime_eventually :
  0 < N -> N < 4 * (PI * PI) ->
  exists eps1, 0 < eps1 /\
    forall epsilon, 0 < epsilon < eps1 ->
      sqrt (N + epsilon * epsilon) <= 2 * PI /\
      epsilon - 1 <= cos (1 / 2 * sqrt (N + epsilon * epsilon))
        <= 1 - epsilon /\
      epsilon <= sin (1 / 2 * sqrt (N + epsilon * epsilon))
                 * sin (1 / 2 * sqrt (N + epsilon * epsilon)).
Proof.
  intros HN HN4.
  pose proof PI_RGT_0 as Hpi.
  assert (Hn : 0 < sqrt N) by (apply sqrt_lt_R0; exact HN).
  assert (HNn : sqrt N * sqrt N = N) by (apply sqrt_sqrt; lra).
  set (n := sqrt N) in *.
  assert (Hn2 : n < 2 * PI) by nra.
  set (m := (n / 2 + PI) / 2).
  assert (Hm : n / 2 < m < PI) by (unfold m; lra).
  assert (Hk1 : cos (n / 2) < 1).
  { rewrite <- cos_0. apply cos_decreasing_1; lra. }
  assert (Hk2 : -1 < cos m).
  { rewrite <- cos_PI. apply cos_decreasing_1; lra. }
  assert (Hmn : cos m <= cos (n / 2)) by (apply cos_decr_1; lra).
  set (k1 := 1 - cos (n / 2)) in *.
  set (k2 := 1 + cos m) in *.
  assert (Hk12 : 0 < k1 * k2) by (apply Rmult_lt_0_compat; unfold k1, k2; lra).
  exists (Rmin (Rmin (PI - n / 2) k1) (Rmin k2 (k1 * k2))).
  split.
  { repeat apply Rmin_pos; try exact Hk12; unfold k1, k2; lra. }
  intros epsilon [He Hlt].
  apply Rlt_min_inv in Hlt. destruct Hlt as [Hl1 Hl2].
  apply Rlt_min_inv in Hl1. destruct Hl1 as [Ha Hb].
  apply Rlt_min_inv in Hl2. destruct Hl2 as [Hc Hd].
  assert (Hs : 0 < N + epsilon * epsilon) by nra.
  assert (Hth : 0 < sqrt (N + epsilon * epsilon))
    by (apply sqrt_lt_R0; exact Hs).
  assert (Hthsq : sqrt (N + epsilon * epsilon) * sqrt (N + epsilon * epsilon)
                  = N + epsilon * epsilon) by (apply sqrt_sqrt; lra).
  set (th := sqrt (N + epsilon * epsilon)) in *.
  assert (Hlo : n <= th) by nra.
  assert (Hhi : th <= n + epsilon) by nra.
  assert (Hh : n / 2 <= 1 / 2 * th <= m) by (unfold m; lra).
  assert (Hc1 : cos (1 / 2 * th) <= cos (n / 2)) by (apply cos_decr_1; lra).
  assert (Hc2 : cos m <= cos (1 / 2 * th)) by (apply cos_decr_1; lra).
  pose proof (sin2_cos2 (1 / 2 * th)) as Hsc. unfold Rsqr in Hsc.
  set (c := cos (1 / 2 * th)) in *.
  set (sn := sin (1 / 2 * th)) in *.
  split; [lra|].
  split; [unfold k1, k2 in *; lra|].
  assert (Hprod : k1 * k2 <= (1 - c) * (1 + c)).
  { apply Rmult_le_compat; unfold k1, k2; lra. }
  nra.
Qed.

(** The round trip tends to the tangent vector as [epsilon] decreases to 0,
    for a rotation block of norm strictly between 0 and [2 PI]. *)
Lemma round_trip_limit (delta : Scalar) :
  0 < N -> N < 4 * (PI * PI) -> 0 < delta ->
  exists eps0, 0 < eps0 /\
    forall epsilon, 0 < epsilon < eps0 ->
      exists t0 t1 t2,
        ToTangent (FromTangent (Vec6 w0 w1 w2 u0 u1 u2) epsilon) epsilon
        = Vec6 w0 w1 w2 t0 t1 t2 /\
        Rabs (t0 - u0) < delta /\ Rabs (t1 - u1) < delta /\
        Rabs (t2 - u2) < delta.
Proof.
  intros HN HN4 Hdelta.
  pose proof PI_RGT_0 as Hpi.
  assert (Hn : 0 < sqrt N) by (apply sqrt_lt_R0; exact HN).
  assert (HNn : sqrt N * sqrt N = N) by (apply sqrt_sqrt; lra).
  assert (Hsin : sin (0.5 * sqrt N) <> 0).
  { apply Rgt_not_eq, sin_gt_0; nra. }
  destruct (regime_eventually HN HN4) as [eps1 [He1 Hregime]].
  destruct (translation_continuous HN Hsin) as [Hc0 [Hc1 Hc2]].
  destruct (translation_at_0 HN Hsin) as [Hv0 [Hv1 Hv2]].
  destruct (continuity_pt_right_of_0 _ Hc0 _ Hdelta) as [al0 [Hal0 Hl0]].
  destruct (continuity_pt_right_of_0 _ Hc1 _ Hdelta) as [al1 [Hal1 Hl1]].
  destruct (continuity_pt_right_of_0 _ Hc2 _ Hdelta) as [al2 [Hal2 Hl2]].
  rewrite Hv0 in Hl0. rewrite Hv1 in Hl1. rewrite Hv2 in Hl2.
  exists (Rmin (Rmin eps1 al0) (Rmin al1 al2)).
  split; [repeat apply Rmin_pos; assumption|].
  intros epsilon [He Hlt].
  apply Rlt_min_inv in Hlt. destruct Hlt as [Ha Hb].
  apply Rlt_min_inv in Ha. destruct Ha as [Ha1 Ha2].
  apply Rlt_min_inv in Hb. destruct Hb as [Hb1 Hb2].
  destruct (Hregime epsilon (conj He Ha1)) as [Hth [Hcos Hsn]].
  exists (F0 epsilon), (F1 epsilon), (F2 epsilon).
  split; [apply round_trip_regime; assumption|].
  split; [apply Hl0; lra|]. split; [apply Hl1; lra | apply Hl2; lra].
Qed.

End RoundTrip.

(** The limit of the round trip.  For a tangent vector whose rotation block
    has norm below [2 PI], and every tolerance [delta > 0], there is
    [eps0 > 0] such that for [0 < eps < eps0] the rotation block of
    [ToTangent (FromTangent v eps) eps] is that of [v] and each component of
    its translation block is within [delta] of that of [v]. *)
Lemma round_trip_converges (vec : Vector6) (delta : Scalar) :
  vec.[0] * vec.[0] + vec.[1] * vec.[1] + vec.[2] * vec.[2]
    < 4 * (PI * PI) ->
  0 < delta ->
  exists eps0, 0 < eps0 /\
    forall epsilon, 0 < epsilon < eps0 ->
      let w := ToTangent (FromTangent vec epsilon) epsilon in
      w.[0] = vec.[0] /\ w.[1] = vec.[1] /\ w.[2] = vec.[2] /\
      Rabs (w.[3] - vec.[3]) < delta /\
      Rabs (w.[4] - vec.[4]) < delta /\
      Rabs (w.[5] - vec.[5]) < delta.
Proof.
  destruct vec as [w0 w1 w2 u0 u1 u2].
  cbv [coeff Indexed_Vector6].
  intros Hnorm Hdelta.
  destruct (Rle_lt_dec (round_trip.rot_norm2 w0 w1 w2) 0) as [Hz|Hpos].
  - unfold round_trip.rot_norm2 in Hz.
    assert (Hw0 : w0 = 0) by nra.
    assert (Hw1 : w1 = 0) by nra.
    assert (Hw2 : w2 = 0) by nra.
    subst w0 w1 w2.
    exists 1. split; [lra|].
    intros epsilon He.
    rewrite round_trip_pure_translation.
    rewrite !Rminus_diag, Rabs_R0.
    repeat split; try reflexivity; exact Hdelta.
  - assert (H4 : round_trip.rot_norm2 w0 w1 w2 < 4 * (PI * PI))
      by (unfold round_trip.rot_norm2; lra).
    destruct (round_trip_limit w0 w1 w2 u0 u1 u2 delta Hpos H4 Hdelta)
      as [eps0 [He0 Hlim]].
    exists eps0. split; [exact He0|].
    intros epsilon He.
    destruct (Hlim epsilon He) as [t0 [t1 [t2 [Heq [H0 [H1 H2]]]]]].
    rewrite Heq.
    repeat split; try reflexivity; assumption.
Qed.

End pose3_facts.

(** ** Pose3: further properties of the four blocks *)

Module pose3_more.
Import pose3 group_ops pose3_domain pose3_facts.

(** The denominators of a logarithm block whose rotation part vanishes:
    the guard [Rmax epsilon x] and its square root, and, the sum [_tmp8]
    (or [_tmp24]) being [epsilon], [sin (0.5 * sqrt epsilon)] and
    [epsilon]. *)
Lemma logarithm_denominators_pos (x epsilon : Scalar) :
  0 < epsilon < 1 ->
  forall d, In d [sqrt (Rmax epsilon x); Rmax epsilon x;
                  sin (0.5 * sqrt epsilon); epsilon] -> 0 < d.
Proof.
  intros He.
  pose proof (Rmax_l epsilon x) as Hmax.
  assert (Hm : 0 < Rmax epsilon x) by lra.
  assert (Hsm : 0 < sqrt (Rmax epsilon x)) by (apply sqrt_lt_R0; exact Hm).
  assert (Hse : 0 < sqrt epsilon) by (apply sqrt_lt_R0; lra).
  assert (Hsq : sqrt epsilon * sqrt epsilon = epsilon)
    by (apply sqrt_sqrt; lra).
  assert (Hs1 : sqrt epsilon < 1) by nra.
  assert (Hsin : 0 < sin (0.5 * sqrt epsilon)).
  { pose proof PI2_3_2. apply sin_gt_0; lra. }
  intros d [<-|[<-|[<-|[<-|[]]]]]; lra.
Qed.

(** The denominators of an exponential block, [s] being the guarded
    squared norm. *)
Lemma exponential_denominators_pos (s : Scalar) :
  0 < s -> forall d, In d [sqrt s; s * sqrt s; s] -> 0 < d.
Proof.
  intros Hs.
  assert (Hn : 0 < sqrt s) by (apply sqrt_lt_R0; exact Hs).
  pose proof (Rmult_lt_0_compat _ _ Hs Hn).
  intros d [<-|[<-|[<-|[]]]]; lra.
Qed.

(** X1.  Over the reals and for [0 < epsilon < 1], the local coordinates of
    an element relative to itself are the zero vector, for every storage
    vector (unit quaternion or not); the four denominators of the block are
    positive there and the argument of the arc cosine lies strictly between
    -1 and 1, so no quotient is undefined. *)
Theorem LocalCoordinates_self (a : Pose3) (epsilon : Scalar) :
  0 < epsilon < 1 ->
  (forall d, In d (LocalCoordinates_denominators a a epsilon) -> 0 < d) /\
  -1 < LocalCoordinates_acos_argument a a epsilon < 1 /\
  LocalCoordinates a a epsilon = Vec6 0 0 0 0 0 0.
Proof.
  intros He.
  destruct a as [[a0 a1 a2 a3 a4 a5 a6]].
  split; [|split].
  - unfold_domain.
    match goal with |- context [sin (0.5 * sqrt ?t)] =>
      replace t with epsilon by ring
    end.
    apply logarithm_denominators_pos. exact He.
  - pose proof (clamp_bounds (a0 * a0 + a1 * a1 + a2 * a2 + a3 * a3)
                  epsilon He) as Hc.
    unfold_domain. lra.
  - unfold_domain. f_equal; ring.
Qed.

(** The hypothesis of X1 holds at [epsilon = 1/2]. *)
Lemma LocalCoordinates_self_witness :
  0 < 1 / 2 < 1 /\
  LocalCoordinates (mkPose3 (Vec7 0 0 0 1 1 2 3))
    (mkPose3 (Vec7 0 0 0 1 1 2 3)) (1 / 2) = Vec6 0 0 0 0 0 0.
Proof.
  split; [lra|].
  apply (LocalCoordinates_self (mkPose3 (Vec7 0 0 0 1 1 2 3)) (1 / 2)). lra.
Defined.

(** X2.  [FromTangent] and [Retract] see [epsilon] only through its square:
    the sign of [epsilon] does not matter. *)
Theorem exponential_blocks_even_in_epsilon (a : Pose3) (vec : Vector6)
    (epsilon : Scalar) :
  FromTangent vec (- epsilon) = FromTangent vec epsilon /\
  Retract a vec (- epsilon) = Retract a vec epsilon.
Proof.
  destruct a as [[a0 a1 a2 a3 a4 a5 a6]].
  destruct vec as [v0 v1 v2 v3 v4 v5].
  unfold_blocks.
  replace (- epsilon * - epsilon) with (epsilon * epsilon) by ring.
  split; reflexivity.
Qed.

Lemma FromTangent_quaternion_norm_aux (vec : Vector6) (epsilon : Scalar) :
  epsilon <> 0 ->
  let theta := sqrt (vec.[2] * vec.[2] + vec.[1] * vec.[1] + vec.[0] * vec.[0]
                     + epsilon * epsilon) in
  let q := Data (FromTangent vec epsilon) in
  let n2 := q.[0] * q.[0] + q.[1] * q.[1] + q.[2] * q.[2] + q.[3] * q.[3] in
  n2 = 1 - (epsilon * sin (1 / 2 * theta) / theta)
           * (epsilon * sin (1 / 2 * theta) / theta) /\
  1 - epsilon * epsilon / 4 <= n2 <= 1.
Proof.
  intros He.
  destruct vec as [v0 v1 v2 v3 v4 v5].
  unfold_blocks.
  pose proof (guarded_square_norm_pos v0 v1 v2 epsilon He) as Hpos.
  set (s := v2 * v2 + v1 * v1 + v0 * v0 + epsilon * epsilon) in *.
  assert (Hn : 0 < sqrt s) by (apply sqrt_lt_R0; exact Hpos).
  assert (Hsq : sqrt s * sqrt s = s) by (apply sqrt_sqrt; lra).
  set (th := sqrt s) in *.
  pose proof (sin2_cos2 (1 / 2 * th)) as Hsc. unfold Rsqr in Hsc.
  assert (Hsin : - (1 / 2 * th) <= sin (1 / 2 * th) <= 1 / 2 * th).
  { split.
    - destruct (Rle_lt_dec 1 (1 / 2 * th)) as [Hbig|Hsmall].
      + pose proof (SIN_bound (1 / 2 * th)). lra.
      + assert (0 < sin (1 / 2 * th)).
        { apply sin_gt_0; [lra|]. pose proof PI2_3_2. lra. }
        lra.
    - apply Rlt_le, sin_lt_x. lra. }
  set (sh := sin (1 / 2 * th)) in *.
  set (c := cos (1 / 2 * th)) in *.
  assert (Hsh2 : sh * sh <= (1 / 2 * th) * (1 / 2 * th)).
  { nra. }
  assert (Hv : v0 * v0 + v1 * v1 + v2 * v2 = th * th - epsilon * epsilon)
    by (unfold s in Hsq; lra).
  assert (Heq : sh / th * v0 * (sh / th * v0) + sh / th * v1 * (sh / th * v1)
                + sh / th * v2 * (sh / th * v2) + c * c
                = 1 - epsilon * sh / th * (epsilon * sh / th)).
  { replace (sh / th * v0 * (sh / th * v0) + sh / th * v1 * (sh / th * v1)
             + sh / th * v2 * (sh / th * v2))
      with (sh * sh * (v0 * v0 + v1 * v1 + v2 * v2) / (th * th))
      by (field; lra).
    rewrite Hv. replace (c * c) with (1 - sh * sh) by lra.
    field. lra. }
  rewrite Heq.
  split; [reflexivity|].
  assert (Hfrac : epsilon * sh / th * (epsilon * sh / th)
                  = epsilon * epsilon * (sh * sh / (th * th)))
    by (field; lra).
  rewrite Hfrac.
  assert (Hr : 0 <= sh * sh / (th * th) <= 1 / 4).
  { split.
    - apply Rmult_le_pos; [nra|]. apply Rlt_le, Rinv_0_lt_compat. nra.
    - apply (Rmult_le_reg_r (th * th)); [nra|].
      replace (sh * sh / (th * th) * (th * th)) with (sh * sh)
        by (field; lra).
      lra. }
  assert (He2 : 0 <= epsilon * epsilon) by nra.
  nra.
Qed.

(** X3.  Over the reals and for [epsilon <> 0], the squared norm of the
    quaternion built by [FromTangent] is
    [1 - (epsilon * sin (theta / 2) / theta)^2], with [theta] the guarded
    norm; it lies between [1 - epsilon^2 / 4] and 1, and it is 1 exactly
    when [sin (theta / 2) = 0]. *)
Theorem FromTangent_quaternion_norm (vec : Vector6) (epsilon : Scalar) :
  epsilon <> 0 ->
  let theta := sqrt (vec.[2] * vec.[2] + vec.[1] * vec.[1] + vec.[0] * vec.[0]
                     + epsilon * epsilon) in
  let q := Data (FromTangent vec epsilon) in
  let n2 := q.[0] * q.[0] + q.[1] * q.[1] + q.[2] * q.[2] + q.[3] * q.[3] in
  n2 = 1 - (epsilon * sin (1 / 2 * theta) / theta)
           * (epsilon * sin (1 / 2 * theta) / theta) /\
  1 - epsilon * epsilon / 4 <= n2 <= 1 /\
  (n2 = 1 <-> sin (1 / 2 * theta) = 0).
Proof.
  intros He theta q n2.
  destruct (FromTangent_quaternion_norm_aux vec epsilon He) as [Heq Hb].
  fold theta q n2 in Heq, Hb.
  split; [exact Heq|]. split; [exact Hb|].
  assert (Hth : 0 < theta).
  { apply sqrt_lt_R0.
    apply (guarded_square_norm_pos vec.[0] vec.[1] vec.[2] epsilon He). }
  rewrite Heq.
  set (x := epsilon * sin (1 / 2 * theta) / theta).
  split.
  - intros H1.
    assert (Hx : x = 0) by nra.
    assert (Hprod : epsilon * sin (1 / 2 * theta) = x * theta)
      by (unfold x; field; lra).
    rewrite Hx, Rmult_0_l in Hprod.
    destruct (Rmult_integral _ _ Hprod) as [H0|H0]; [contradiction|exact H0].
  - intros Hs. unfold x. rewrite Hs. field. lra.
Qed.

(** The hypothesis of X3 holds at the tangent vector [(3, 0, 0, 0, 0, 0)]
    with [epsilon = 4]. *)
Lemma FromTangent_quaternion_norm_witness :
  (4 : Scalar) <> 0 /\
  (let q := Data (FromTangent (Vec6 3 0 0 0 0 0) 4) in
   q.[0] * q.[0] + q.[1] * q.[1] + q.[2] * q.[2] + q.[3] * q.[3] <= 1).
Proof.
  split; [lra|].
  apply (FromTangent_quaternion_norm (Vec6 3 0 0 0 0 0) 4). lra.
Defined.

Lemma sin_sqr_le (x : Scalar) : sin x * sin x <= x * x.
Proof.
  assert (Hpos : forall y, 0 <= y -> - y <= sin y <= y).
  { intros y Hy. destruct (Req_dec y 0) as [->|Hne].
    - rewrite sin_0. lra.
    - split.
      + destruct (Rle_lt_dec 1 y) as [Hbig|Hsmall].
        * pose proof (SIN_bound y). lra.
        * assert (0 < sin y).
          { apply sin_gt_0; [lra|]. pose proof PI2_3_2. lra. }
          lra.
      + apply Rlt_le, sin_lt_x. lra. }
  destruct (Rle_lt_dec 0 x) as [Hx|Hx].
  - pose proof (Hpos x Hx). nra.
  - pose proof (Hpos (- x) ltac:(lra)) as H. rewrite sin_neg in H. nra.
Qed.

Lemma sqrt_square_abs (x : Scalar) : sqrt (0 * 0 + 0 * 0 + 0 * 0 + x * x) = Rabs x.
Proof.
  replace (0 * 0 + 0 * 0 + 0 * 0 + x * x) with (Rsqr x) by (unfold Rsqr; ring).
  apply sqrt_Rsqr_abs.
Qed.

(** X4.  Over the reals and for [epsilon <> 0], retracting by the zero
    tangent vector divides by three positive numbers, keeps the translation
    of [a] and scales its quaternion by [cos (|epsilon| / 2)]; each
    quaternion component therefore moves by at most [epsilon^2 / 8] times
    its size. *)
Theorem Retract_zero (a : Pose3) (epsilon : Scalar) :
  epsilon <> 0 ->
  let c := cos (1 / 2 * Rabs epsilon) in
  let r := Data (Retract a (Vec6 0 0 0 0 0 0) epsilon) in
  let q := Data a in
  (forall d, In d (Retract_denominators a (Vec6 0 0 0 0 0 0) epsilon) ->
             0 < d) /\
  r = Vec7 (q.[0] * c) (q.[1] * c) (q.[2] * c) (q.[3] * c) q.[4] q.[5] q.[6] /\
  0 <= 1 - c <= epsilon * epsilon / 8 /\
  (forall i, (i < 4)%nat ->
     Rabs (r.[i] - q.[i]) <= Rabs q.[i] * (epsilon * epsilon / 8)).
Proof.
  intros He.
  destruct a as [[a0 a1 a2 a3 a4 a5 a6]].
  cbv zeta.
  split.
  { unfold_domain. apply exponential_denominators_pos.
    assert (0 < epsilon * epsilon) by nra. lra. }
  assert (Heq : Data (Retract (mkPose3 (Vec7 a0 a1 a2 a3 a4 a5 a6))
                        (Vec6 0 0 0 0 0 0) epsilon)
                = Vec7 (a0 * cos (1 / 2 * Rabs epsilon))
                       (a1 * cos (1 / 2 * Rabs epsilon))
                       (a2 * cos (1 / 2 * Rabs epsilon))
                       (a3 * cos (1 / 2 * Rabs epsilon)) a4 a5 a6).
  { unfold_blocks. rewrite sqrt_square_abs. f_equal; ring. }
  rewrite Heq.
  assert (Hc : 0 <= 1 - cos (1 / 2 * Rabs epsilon) <= epsilon * epsilon / 8).
  { replace (1 / 2 * Rabs epsilon) with (2 * (Rabs epsilon / 4)) by field.
    rewrite cos_2a_sin.
    pose proof (sin_sqr_le (Rabs epsilon / 4)) as Hs.
    assert (Habs : Rabs epsilon * Rabs epsilon = epsilon * epsilon).
    { unfold Rabs. destruct (Rcase_abs epsilon); ring. }
    assert (0 <= sin (Rabs epsilon / 4) * sin (Rabs epsilon / 4)) by nra.
    nra. }
  split; [reflexivity|]. split; [exact Hc|].
  set (c := cos (1 / 2 * Rabs epsilon)) in *.
  intros i Hi.
  cbv [Data coeff Indexed_Vector7].
  assert (Hcomp : forall x, Rabs (x * c - x) <= Rabs x * (epsilon * epsilon / 8)).
  { intros x. replace (x * c - x) with (x * (c - 1)) by ring.
    rewrite Rabs_mult. apply Rmult_le_compat_l; [apply Rabs_pos|].
    rewrite Rabs_left1; lra. }
  destruct i as [|[|[|[|i]]]]; try apply Hcomp. lia.
Qed.

(** The hypothesis of X4 holds at [epsilon = 1/10]. *)
Lemma Retract_zero_witness :
  (1 / 10 : Scalar) <> 0 /\
  Data (Retract (mkPose3 (Vec7 0 0 0 1 1 2 3)) (Vec6 0 0 0 0 0 0) (1 / 10))
  = Vec7 (0 * cos (1 / 2 * Rabs (1 / 10))) (0 * cos (1 / 2 * Rabs (1 / 10)))
         (0 * cos (1 / 2 * Rabs (1 / 10))) (1 * cos (1 / 2 * Rabs (1 / 10)))
         1 2 3.
Proof.
  split; [lra|].
  apply (Retract_zero (mkPose3 (Vec7 0 0 0 1 1 2 3)) (1 / 10)). lra.
Defined.

(** X5.  Over the reals, without a rotation block neither map mixes
    anything into the translation.  For [epsilon <> 0],
    [FromTangent (0, 0, 0, u)] divides by three positive numbers and is the
    quaternion [(0, 0, 0, cos (|epsilon| / 2))] with translation [u].  For
    [0 < epsilon < 1], [ToTangent] of a pose whose quaternion has no vector
    part divides by four positive numbers, takes the arc cosine strictly
    inside [[-1, 1]] and returns the translation unchanged, whatever the
    real part of the quaternion. *)
Theorem pure_translation_blocks (u0 u1 u2 w epsilon : Scalar) :
  epsilon <> 0 ->
  ((forall d, In d (FromTangent_denominators (Vec6 0 0 0 u0 u1 u2) epsilon) ->
              0 < d) /\
   FromTangent (Vec6 0 0 0 u0 u1 u2) epsilon
   = mkPose3 (Vec7 0 0 0 (cos (1 / 2 * Rabs epsilon)) u0 u1 u2)) /\
  (0 < epsilon < 1 ->
   (forall d, In d (ToTangent_denominators
                      (mkPose3 (Vec7 0 0 0 w u0 u1 u2)) epsilon) -> 0 < d) /\
   -1 < ToTangent_acos_argument (mkPose3 (Vec7 0 0 0 w u0 u1 u2)) epsilon
      < 1 /\
   ToTangent (mkPose3 (Vec7 0 0 0 w u0 u1 u2)) epsilon
   = Vec6 0 0 0 u0 u1 u2).
Proof.
  intros He.
  split; [split|].
  - unfold_domain. apply exponential_denominators_pos.
    assert (0 < epsilon * epsilon) by nra. lra.
  - unfold_blocks. rewrite sqrt_square_abs. do 2 f_equal; ring.
  - intros He1.
    split; [|split].
    + unfold_domain.
      match goal with |- context [sin (0.5 * sqrt ?t)] =>
        replace t with epsilon by ring
      end.
      apply logarithm_denominators_pos. exact He1.
    + pose proof (clamp_bounds w epsilon He1) as Hc.
      unfold_domain. lra.
    + unfold_blocks. f_equal; ring.
Qed.

(** The hypotheses of X5 hold at [epsilon = 1/2]. *)
Lemma pure_translation_blocks_witness :
  (1 / 2 : Scalar) <> 0 /\ 0 < 1 / 2 < 1 /\
  ToTangent (mkPose3 (Vec7 0 0 0 1 1 2 3)) (1 / 2) = Vec6 0 0 0 1 2 3.
Proof.
  split; [lra|]. split; [lra|].
  apply (pure_translation_blocks 1 2 3 1 (1 / 2)); lra.
Defined.

Lemma Between_Retract (a : Pose3) (vec : Vector6) (epsilon : Scalar) :
  (Data a).[0] * (Data a).[0] + (Data a).[1] * (Data a).[1]
    + (Data a).[2] * (Data a).[2] + (Data a).[3] * (Data a).[3] = 1 ->
  Between a (Retract a vec epsilon) = FromTangent vec epsilon.
Proof.
  destruct a as [[a0 a1 a2 a3 a4 a5 a6]].
  destruct vec as [v0 v1 v2 v3 v4 v5].
  unfold_blocks.
  intros Hunit.
  set (s := v2 * v2 + v1 * v1 + v0 * v0 + epsilon * epsilon).
  set (k := sin (1 / 2 * sqrt s) / sqrt s).
  set (c := cos (1 / 2 * sqrt s)).
  set (p := (sqrt s - sin (sqrt s)) / (s * sqrt s)).
  set (b := (- cos (sqrt s) + 1) / s).
  clearbody k c p b.
  do 2 f_equal; nsatz.
Qed.

(** X6.  For an element [a] with a unit quaternion, the local coordinates
    of [Retract a v eps] relative to [a] are the round trip
    [ToTangent (FromTangent v eps) eps] of the tangent vector, whatever the
    translation of [a]. *)
Theorem LocalCoordinates_Retract (a : Pose3) (vec : Vector6)
    (epsilon : Scalar) :
  (Data a).[0] * (Data a).[0] + (Data a).[1] * (Data a).[1]
    + (Data a).[2] * (Data a).[2] + (Data a).[3] * (Data a).[3] = 1 ->
  LocalCoordinates a (Retract a vec epsilon) epsilon
  = ToTangent (FromTangent vec epsilon) epsilon.
Proof.
  intros Hunit.
  unfold LocalCoordinates, ToTangent.
  rewrite LocalCoordinates_with_Between.
  rewrite (Between_Retract a vec epsilon Hunit).
  reflexivity.
Qed.

(** The hypothesis of X6 holds at the quarter turn about the first axis,
    translated by [(1, 2, 3)]. *)
Lemma LocalCoordinates_Retract_witness :
  (1 * 1 + 0 * 0 + 0 * 0 + 0 * 0 = 1 :> Scalar) /\
  LocalCoordinates (mkPose3 (Vec7 1 0 0 0 1 2 3))
    (Retract (mkPose3 (Vec7 1 0 0 0 1 2 3)) (Vec6 1 2 3 4 5 6) (1 / 10))
    (1 / 10)
  = ToTangent (FromTangent (Vec6 1 2 3 4 5 6) (1 / 10)) (1 / 10).
Proof.
  split; [lra|].
  apply (LocalCoordinates_Retract (mkPose3 (Vec7 1 0 0 0 1 2 3))).
  cbv [Data coeff Indexed_Vector7]. lra.
Defined.

(** X7.  [LocalCoordinates] sees the two translations only through their
    difference: moving both elements by the same vector changes nothing. *)
Theorem LocalCoordinates_translation_invariant
    (a0 a1 a2 a3 a4 a5 a6 b0 b1 b2 b3 b4 b5 b6 d0 d1 d2 epsilon : Scalar) :
  LocalCoordinates
    (mkPose3 (Vec7 a0 a1 a2 a3 (a4 + d0) (a5 + d1) (a6 + d2)))
    (mkPose3 (Vec7 b0 b1 b2 b3 (b4 + d0) (b5 + d1) (b6 + d2))) epsilon
  = LocalCoordinates (mkPose3 (Vec7 a0 a1 a2 a3 a4 a5 a6))
                     (mkPose3 (Vec7 b0 b1 b2 b3 b4 b5 b6)) epsilon.
Proof.
  unfold_blocks.
  f_equal; ring.
Qed.

Lemma Between_Identity (b : Pose3) : Between Identity b = b.
Proof.
  destruct b as [[b0 b1 b2 b3 b4 b5 b6]].
  unfold_blocks.
  do 2 f_equal; ring.
Qed.

(** X8.  From the identity element [(0, 0, 0, 1, 0, 0, 0)] the fused blocks
    are the plain maps: [Retract] is [FromTangent] and [LocalCoordinates]
    is [ToTangent]. *)
Theorem blocks_at_identity (b : Pose3) (vec : Vector6) (epsilon : Scalar) :
  Retract (mkPose3 (Vec7 0 0 0 1 0 0 0)) vec epsilon = FromTangent vec epsilon /\
  LocalCoordinates (mkPose3 (Vec7 0 0 0 1 0 0 0)) b epsilon
  = ToTangent b epsilon.
Proof.
  split.
  - destruct vec as [v0 v1 v2 v3 v4 v5].
    unfold_blocks. do 2 f_equal; ring.
  - unfold LocalCoordinates, ToTangent.
    rewrite LocalCoordinates_with_Between.
    change (mkPose3 (Vec7 0 0 0 1 0 0 0)) with Identity.
    rewrite Between_Identity. reflexivity.
Qed.

(** X23.  The translation of [a] enters [Retract] additively: moving [a]
    by a vector moves the result by the same vector and leaves its
    quaternion alone. *)
Theorem Retract_translation_equivariant
    (a0 a1 a2 a3 a4 a5 a6 d0 d1 d2 : Scalar) (vec : Vector6)
    (epsilon : Scalar) :
  let r := Data (Retract (mkPose3 (Vec7 a0 a1 a2 a3 a4 a5 a6)) vec epsilon) in
  Retract (mkPose3 (Vec7 a0 a1 a2 a3 (a4 + d0) (a5 + d1) (a6 + d2))) vec
    epsilon
  = mkPose3 (Vec7 r.[0] r.[1] r.[2] r.[3] (r.[4] + d0) (r.[5] + d1)
               (r.[6] + d2)).
Proof.
  destruct vec as [v0 v1 v2 v3 v4 v5].
  unfold_blocks.
  do 2 f_equal; ring.
Qed.

(** X24.  [Retract] multiplies squared quaternion norms: the squared norm
    of the result is that of [a] times that of the exponential's
    quaternion.  From a unit quaternion each retraction therefore lands
    between [1 - epsilon^2 / 4] and 1, never above. *)
Theorem Retract_quaternion_norm (a : Pose3) (vec : Vector6)
    (epsilon : Scalar) :
  epsilon <> 0 ->
  let norm2 (q : Vector7) :=
    q.[0] * q.[0] + q.[1] * q.[1] + q.[2] * q.[2] + q.[3] * q.[3] in
  norm2 (Data (Retract a vec epsilon))
  = norm2 (Data a) * norm2 (Data (FromTangent vec epsilon)) /\
  (norm2 (Data a) = 1 ->
   1 - epsilon * epsilon / 4 <= norm2 (Data (Retract a vec epsilon)) <= 1).
Proof.
  intros He. cbv zeta.
  assert (Hmul :
    (Data (Retract a vec epsilon)).[0] * (Data (Retract a vec epsilon)).[0]
    + (Data (Retract a vec epsilon)).[1] * (Data (Retract a vec epsilon)).[1]
    + (Data (Retract a vec epsilon)).[2] * (Data (Retract a vec epsilon)).[2]
    + (Data (Retract a vec epsilon)).[3] * (Data (Retract a vec epsilon)).[3]
    = ((Data a).[0] * (Data a).[0] + (Data a).[1] * (Data a).[1]
       + (Data a).[2] * (Data a).[2] + (Data a).[3] * (Data a).[3])
      * ((Data (FromTangent vec epsilon)).[0]
           * (Data (FromTangent vec epsilon)).[0]
         + (Data (FromTangent vec epsilon)).[1]
           * (Data (FromTangent vec epsilon)).[1]
         + (Data (FromTangent vec epsilon)).[2]
           * (Data (FromTangent vec epsilon)).[2]
         + (Data (FromTangent vec epsilon)).[3]
           * (Data (FromTangent vec epsilon)).[3])).
  { destruct a as [[a0 a1 a2 a3 a4 a5 a6]].
    destruct vec as [v0 v1 v2 v3 v4 v5].
    unfold_blocks. ring. }
  split; [exact Hmul|].
  intros Hunit. rewrite Hmul, Hunit, Rmult_1_l.
  apply (FromTangent_quaternion_norm_aux vec epsilon He).
Qed.

(** The hypothesis of X24 holds at [epsilon = 1/10]. *)
Lemma Retract_quaternion_norm_witness :
  (1 / 10 : Scalar) <> 0 /\
  (let r := Data (Retract (mkPose3 (Vec7 1 0 0 0 1 2 3)) (Vec6 1 2 3 4 5 6)
                    (1 / 10)) in
   let e := Data (FromTangent (Vec6 1 2 3 4 5 6) (1 / 10)) in
   let q := Vec7 1 0 0 0 1 2 3 in
   r.[0] * r.[0] + r.[1] * r.[1] + r.[2] * r.[2] + r.[3] * r.[3]
   = (q.[0] * q.[0] + q.[1] * q.[1] + q.[2] * q.[2] + q.[3] * q.[3])
     * (e.[0] * e.[0] + e.[1] * e.[1] + e.[2] * e.[2] + e.[3] * e.[3])).
Proof.
  split; [lra|].
  apply (Retract_quaternion_norm (mkPose3 (Vec7 1 0 0 0 1 2 3))
           (Vec6 1 2 3 4 5 6) (1 / 10)).
  lra.
Defined.

End pose3_more.

(** ** Pose3: the round trip at a given epsilon *)

Module pose3_round_trip.
Import pose3 group_ops pose3_domain pose3_facts round_trip.

(** The regime of the round trip: a positive [epsilon], a guarded norm of
    at most [2 PI], and a half-angle cosine that the clamp leaves alone. *)
Section Regime.
Variables w0 w1 w2 epsilon : Scalar.

Local Abbreviation N := (rot_norm2 w0 w1 w2).
Local Abbreviation theta := (sqrt (N + epsilon * epsilon)).

Hypothesis He : 0 < epsilon.
Hypothesis Hth : theta <= 2 * PI.
Hypothesis Hcos : epsilon - 1 <= cos (1 / 2 * theta) <= 1 - epsilon.

(** Where the clamp is inactive so is the guard [Rmax epsilon _]. *)
Lemma regime_guard_inactive :
  epsilon <= sin (1 / 2 * theta) * sin (1 / 2 * theta).
Proof.
  pose proof (sin2_cos2 (1 / 2 * theta)) as Hsc. unfold Rsqr in Hsc.
  nra.
Qed.

(** The guarded norm. *)
Lemma regime_theta : 0 < theta /\ theta * theta = N + epsilon * epsilon.
Proof.
  assert (HN : 0 <= N) by (unfold rot_norm2; nra).
  assert (Hs : 0 < N + epsilon * epsilon) by nra.
  split; [apply sqrt_lt_R0; exact Hs | apply sqrt_sqrt; lra].
Qed.

(** The regime excludes the zero rotation block. *)
Lemma regime_norm_pos : 0 < N.
Proof.
  pose proof regime_guard_inactive as Hg.
  pose proof (pose3_more.sin_sqr_le (1 / 2 * theta)) as Hle.
  destruct regime_theta as [Hpos Hsq].
  nra.
Qed.

Lemma regime_norm_below_full_turn : N < 4 * (PI * PI).
Proof.
  destruct regime_theta as [Hpos Hsq].
  assert (theta * theta <= (2 * PI) * (2 * PI)) by nra.
  nra.
Qed.

Lemma regime_half_angle : 0 < 1 / 2 * theta < PI.
Proof.
  destruct regime_theta as [Hpos Hsq].
  split; [lra|].
  destruct (Rlt_le_dec (1 / 2 * theta) PI) as [Hlt|Hge]; [exact Hlt|].
  assert (Heq : 1 / 2 * theta = PI) by lra.
  pose proof regime_guard_inactive as Hg.
  rewrite Heq, sin_PI in Hg. lra.
Qed.

(** The sine by which the logarithm divides: its argument
    [0.5 * sqrt (N + epsilon)] stays below [PI]. *)
Lemma regime_sin_pos : 0 < sin (0.5 * sqrt (N + epsilon)).
Proof.
  pose proof PI_RGT_0 as Hpi0.
  pose proof PI2_3_2 as Hpi.
  pose proof regime_norm_pos as HN.
  destruct regime_theta as [Hpos Hsq].
  destruct regime_half_angle as [Hh0 Hh1].
  pose proof regime_guard_inactive as Hg.
  assert (Hp : 0 < N + epsilon) by lra.
  assert (Hphi : 0 < sqrt (N + epsilon)) by (apply sqrt_lt_R0; exact Hp).
  assert (Hphisq : sqrt (N + epsilon) * sqrt (N + epsilon) = N + epsilon)
    by (apply sqrt_sqrt; lra).
  apply sin_gt_0; [lra|].
  destruct (Rlt_le_dec (0.5 * sqrt (N + epsilon)) PI) as [Hlt|Hge];
    [exact Hlt|exfalso].
  set (x := PI - 1 / 2 * theta) in *.
  assert (Hx : 0 < x < PI) by (unfold x; lra).
  assert (Hsx : sin (1 / 2 * theta) = sin x).
  { unfold x. rewrite sin_PI_x. reflexivity. }
  rewrite Hsx in Hg.
  pose proof (pose3_more.sin_sqr_le x) as Hle.
  assert (Hthx : theta = 2 * (PI - x)) by (unfold x; lra).
  assert (Hbig : 4 * (PI * PI) <= N + epsilon) by nra.
  rewrite Hthx in Hsq.
  assert (He1 : epsilon <= 1) by lra.
  assert (H1 : 4 * x * (2 * PI - x) <= epsilon - epsilon * epsilon) by nra.
  assert (H2 : 12 * x < 4 * x * (2 * PI - x)) by nra.
  assert (H3 : epsilon <= x * x) by lra.
  nra.
Qed.

(** In the regime the logarithm divides by [sin h], its square,
    [sin (0.5 * sqrt (N + epsilon))] and [N + epsilon], with [h] half the
    guarded norm, and takes the arc cosine of [cos h]. *)
Lemma regime_logarithm_domain (u0 u1 u2 : Scalar) :
  let q := FromTangent (Vec6 w0 w1 w2 u0 u1 u2) epsilon in
  ToTangent_denominators q epsilon
  = [sin (1 / 2 * theta); sin (1 / 2 * theta) * sin (1 / 2 * theta);
     sin (0.5 * sqrt (N + epsilon)); N + epsilon] /\
  ToTangent_acos_argument q epsilon = cos (1 / 2 * theta).
Proof.
  pose proof regime_guard_inactive as Hg.
  destruct regime_theta as [Hpos Hsq].
  destruct regime_half_angle as [Hh0 Hh1].
  revert Hg Hpos Hsq Hh0 Hh1 Hcos.
  unfold rot_norm2.
  unfold_domain.
  set (s := w2 * w2 + w1 * w1 + w0 * w0 + epsilon * epsilon).
  set (h := 1 / 2 * sqrt s).
  intros Hg Hpos Hsq Hh0 Hh1 Hc.
  assert (Hsin0 : 0 < sin h) by (apply sin_gt_0; lra).
  rewrite (Rmin_left (cos h) (- epsilon + 1)) by lra.
  rewrite (Rmax_right (epsilon - 1) (cos h)) by lra.
  split; [|reflexivity].
  rewrite (acos_cos h) by lra.
  assert (Hid : - (cos h * cos h) + 1 = sin h * sin h).
  { pose proof (sin2_cos2 h) as H. unfold Rsqr in H. lra. }
  rewrite Hid.
  rewrite (Rmax_right epsilon (sin h * sin h)) by lra.
  rewrite (sqrt_square (sin h)) by lra.
  assert (Hq : sin h / sqrt s * w2 * (sin h / sqrt s * w2)
                 * (4 * (h * h) / (sin h * sin h))
               + sin h / sqrt s * w1 * (sin h / sqrt s * w1)
                 * (4 * (h * h) / (sin h * sin h))
               + sin h / sqrt s * w0 * (sin h / sqrt s * w0)
                 * (4 * (h * h) / (sin h * sin h)) + epsilon
               = w2 * w2 + w1 * w1 + w0 * w0 + epsilon).
  { set (sh := sin h) in *. unfold h. field. split; lra. }
  rewrite Hq. reflexivity.
Qed.

End Regime.




End pose3_round_trip.

(** ** Pose2 *)

Module pose2_facts.
Import sym.

Ltac unfold_pose2 :=
  cbv [ComposeWithPoint InverseCompose Rotation Position Data Rot2_Data
       coeff Indexed_Vector2 Indexed_Vector4] in *.

(** [ComposeWithPoint] followed by [InverseCompose] scales a point by the
    squared norm of the rotation parameters, whatever they are. *)
Lemma InverseCompose_ComposeWithPoint_scale (p : Pose2) (x : Vector2) :
  let n2 := (Data p).[0] * (Data p).[0] + (Data p).[1] * (Data p).[1] in
  InverseCompose p (ComposeWithPoint p x) = Vec2 (n2 * x.[0]) (n2 * x.[1]).
Proof.
  destruct p as [[p0 p1 p2 p3]], x as [x0 x1].
  unfold_pose2.
  f_equal; ring.
Qed.

(** C10.  For a Pose2 whose rotation parameters have unit norm and every 2D
    point, applying the pose and then the inverse pose gives the point
    back, exactly. *)
Theorem InverseCompose_ComposeWithPoint (p : Pose2) (x : Vector2) :
  (Data p).[0] * (Data p).[0] + (Data p).[1] * (Data p).[1] = 1 ->
  InverseCompose p (ComposeWithPoint p x) = x.
Proof.
  intros Hunit.
  rewrite InverseCompose_ComposeWithPoint_scale.
  cbv zeta. rewrite Hunit.
  destruct x as [x0 x1].
  cbv [coeff Indexed_Vector2].
  f_equal; ring.
Qed.

(** The hypothesis of C10 holds at the quarter turn with translation
    [(2, 3)]. *)
Lemma InverseCompose_ComposeWithPoint_witness :
  (0 * 0 + 1 * 1 = 1 :> Scalar) /\
  InverseCompose (mkPose2 (Vec4 0 1 2 3))
                 (ComposeWithPoint (mkPose2 (Vec4 0 1 2 3)) (Vec2 5 7))
  = Vec2 5 7.
Proof.
  split; [lra|].
  apply (InverseCompose_ComposeWithPoint (mkPose2 (Vec4 0 1 2 3)) (Vec2 5 7)).
  cbv [Data coeff Indexed_Vector4]. lra.
Defined.

End pose2_facts.

(** ** Pose2: further properties *)

Module pose2_more.
Import sym pose2_facts.

Ltac unfold_pose2_all :=
  cbv [ComposeWithPoint InverseCompose Rotation Position ToHomogenousMatrix
       Data Rot2_Data mul33 at33 det33
       coeff Indexed_Vector2 Indexed_Vector3 Indexed_Vector4] in *.

(** X9.  For a Pose2 with unit rotation parameters, [ComposeWithPoint]
    undoes [InverseCompose]: the inverse followed by the pose gives the
    point back (the order opposite to C10). *)
Theorem ComposeWithPoint_InverseCompose (p : Pose2) (x : Vector2) :
  (Data p).[0] * (Data p).[0] + (Data p).[1] * (Data p).[1] = 1 ->
  ComposeWithPoint p (InverseCompose p x) = x.
Proof.
  destruct p as [[p0 p1 p2 p3]], x as [x0 x1].
  unfold_pose2_all.
  intros Hunit.
  f_equal; nsatz.
Qed.

Lemma ComposeWithPoint_InverseCompose_witness :
  (0 * 0 + 1 * 1 = 1 :> Scalar) /\
  ComposeWithPoint (mkPose2 (Vec4 0 1 2 3))
                   (InverseCompose (mkPose2 (Vec4 0 1 2 3)) (Vec2 5 7))
  = Vec2 5 7.
Proof.
  split; [lra|].
  apply (ComposeWithPoint_InverseCompose (mkPose2 (Vec4 0 1 2 3)) (Vec2 5 7)).
  cbv [Data coeff Indexed_Vector4]. lra.
Defined.

(** X10.  The pose maps the origin to its own position, and the inverse
    action maps that position back to the origin, for every storage vector
    (no unit-norm condition). *)
Theorem position_and_origin (p : Pose2) :
  ComposeWithPoint p (Vec2 0 0) = Position p /\
  InverseCompose p (Position p) = Vec2 0 0.
Proof.
  destruct p as [[p0 p1 p2 p3]].
  unfold_pose2_all.
  split; f_equal; ring.
Qed.

(** X11.  [ComposeWithPoint] and [InverseCompose] scale the squared
    distance of two points by the squared norm of the rotation parameters;
    with unit parameters both are isometries. *)
Theorem point_actions_scale_distance (p : Pose2) (x y : Vector2) :
  let n2 := (Data p).[0] * (Data p).[0] + (Data p).[1] * (Data p).[1] in
  let dist2 (u v : Vector2) :=
    (u.[0] - v.[0]) * (u.[0] - v.[0]) + (u.[1] - v.[1]) * (u.[1] - v.[1]) in
  dist2 (ComposeWithPoint p x) (ComposeWithPoint p y) = n2 * dist2 x y /\
  dist2 (InverseCompose p x) (InverseCompose p y) = n2 * dist2 x y.
Proof.
  destruct p as [[p0 p1 p2 p3]], x as [x0 x1], y as [y0 y1].
  unfold_pose2_all.
  split; ring.
Qed.

(** X12.  The homogeneous matrix acts on [(x, y, 1)] as [ComposeWithPoint]
    acts on [(x, y)] and keeps the last coordinate 1; its determinant is
    the squared norm of the rotation parameters. *)
Theorem ToHomogenousMatrix_action (p : Pose2) (x : Vector2) :
  mul33 (ToHomogenousMatrix p) (Vec3 x.[0] x.[1] 1)
  = Vec3 (ComposeWithPoint p x).[0] (ComposeWithPoint p x).[1] 1 /\
  det33 (ToHomogenousMatrix p)
  = (Data p).[0] * (Data p).[0] + (Data p).[1] * (Data p).[1].
Proof.
  destruct p as [[p0 p1 p2 p3]], x as [x0 x1].
  unfold_pose2_all.
  split; [f_equal|]; ring.
Qed.

End pose2_more.

(** ** Camera *)

Module camera_facts.
Import cam camera_spec.

Section Gating.
Context {C : Type} `{CameraCalType C}.

Lemma InView_spec (pixel : Vector2) (image_size : Vector2i) :
  (in_frame image_size pixel -> Camera.InView pixel image_size = 1) /\
  (~ in_frame image_size pixel -> Camera.InView pixel image_size = 0).
Proof.
  unfold Camera.InView. cbv zeta.
  set (t := (_ && _) && (_ && _)).
  assert (Ht : t = true <-> in_frame image_size pixel).
  { subst t. unfold in_frame.
    rewrite !andb_true_iff, !Rgeb_true, !Rleb_true.
    lra. }
  destruct t; split; intros Hf; try reflexivity.
  - exfalso. apply Hf, Ht. reflexivity.
  - apply Ht in Hf. discriminate.
Qed.

Lemma MaybeCheckInView_spec (self : Camera C) (pixel : Vector2) :
  (unbounded (image_size_ self) -> Camera.MaybeCheckInView self pixel = 1) /\
  (~ unbounded (image_size_ self) ->
   Camera.MaybeCheckInView self pixel = Camera.InView pixel (image_size_ self)).
Proof.
  unfold unbounded, Camera.MaybeCheckInView.
  destruct (Z.leb_spec (image_size_ self).[0] 0);
    destruct (Z.leb_spec (image_size_ self).[1] 0);
    cbn [orb]; split; intros Hu; try reflexivity; exfalso;
    solve [ apply Hu; auto | destruct Hu; lia ].
Qed.

Lemma MaybeCheckInView_cases (self : Camera C) (pixel : Vector2) :
  Camera.MaybeCheckInView self pixel = 1 \/
  Camera.MaybeCheckInView self pixel = 0.
Proof.
  unfold Camera.MaybeCheckInView, Camera.InView.
  destruct (_ || _); [left; reflexivity|].
  cbv zeta. destruct (_ && _); [left|right]; reflexivity.
Qed.

(** C3.  With a non-null [is_valid], [Camera::PixelFromCameraPoint] and
    [Camera::CameraRayFromPixel] return the validity of the calibration
    multiplied by an in-frame factor.  On a bounded image the factor is 1
    exactly when [0 <= x <= width - 1] and [0 <= y <= height - 1] and 0
    otherwise; on an unbounded image it is always 1.  With image size
    (640, 480) a projected pixel (700, 10) gives validity 0 whatever the
    calibration reports, and (639, 0) gives 1 when the calibration reports
    1; with image size (-1, -1) the validity is the calibration's. *)
Theorem Camera_validity_gating (self : Camera C) (point : Vector3)
    (pixel : Vector2) (epsilon : Scalar) :
  let cal := calibration_ self in
  let size := image_size_ self in
  let projected := fst (PixelFromCameraPoint cal point epsilon) in
  let cal_valid := snd (PixelFromCameraPoint cal point epsilon) in
  snd (Camera.PixelFromCameraPoint self point epsilon true)
    = Some (cal_valid * Camera.MaybeCheckInView self projected) /\
  snd (Camera.CameraRayFromPixel self pixel epsilon true)
    = Some (snd (CameraRayFromPixel cal pixel epsilon)
            * Camera.MaybeCheckInView self pixel) /\
  (forall px, ~ unbounded size ->
     (Camera.MaybeCheckInView self px = 1 <-> in_frame size px) /\
     (Camera.MaybeCheckInView self px = 0 <-> ~ in_frame size px)) /\
  (forall px, unbounded size -> Camera.MaybeCheckInView self px = 1) /\
  (size = Vec2i 640 480 ->
     (projected = Vec2 700 10 ->
        snd (Camera.PixelFromCameraPoint self point epsilon true) = Some 0) /\
     (projected = Vec2 639 0 -> cal_valid = 1 ->
        snd (Camera.PixelFromCameraPoint self point epsilon true) = Some 1)) /\
  (size = default_image_size ->
     snd (Camera.PixelFromCameraPoint self point epsilon true)
       = Some cal_valid /\
     snd (Camera.CameraRayFromPixel self pixel epsilon true)
       = Some (snd (CameraRayFromPixel cal pixel epsilon))).
Proof.
  intros cal size projected cal_valid.
  assert (Hp : snd (Camera.PixelFromCameraPoint self point epsilon true)
               = Some (cal_valid * Camera.MaybeCheckInView self projected)).
  { subst cal projected cal_valid. unfold Camera.PixelFromCameraPoint.
    destruct (PixelFromCameraPoint (calibration_ self) point epsilon).
    reflexivity. }
  assert (Hr : snd (Camera.CameraRayFromPixel self pixel epsilon true)
               = Some (snd (CameraRayFromPixel cal pixel epsilon)
                       * Camera.MaybeCheckInView self pixel)).
  { subst cal. unfold Camera.CameraRayFromPixel.
    destruct (CameraRayFromPixel (calibration_ self) pixel epsilon).
    reflexivity. }
  assert (Hbounded : forall px, ~ unbounded size ->
     (Camera.MaybeCheckInView self px = 1 <-> in_frame size px) /\
     (Camera.MaybeCheckInView self px = 0 <-> ~ in_frame size px)).
  { intros px Hb.
    destruct (MaybeCheckInView_spec self px) as [_ Hin].
    destruct (InView_spec px size) as [H1 H0].
    fold size in Hin. rewrite (Hin Hb).
    split; split; intros Hx.
    - destruct (classic (in_frame size px)) as [Hf|Hf]; [exact Hf|].
      rewrite (H0 Hf) in Hx. lra.
    - exact (H1 Hx).
    - intros Hf. rewrite (H1 Hf) in Hx. lra.
    - exact (H0 Hx). }
  assert (Hunbounded : forall px, unbounded size ->
                                  Camera.MaybeCheckInView self px = 1).
  { intros px Hu. apply (MaybeCheckInView_spec self px). exact Hu. }
  split; [exact Hp|]. split; [exact Hr|].
  split; [exact Hbounded|]. split; [exact Hunbounded|].
  split.
  - intros Hsize.
    assert (Hb : ~ unbounded size).
    { rewrite Hsize. unfold unbounded. cbv [coeff Indexed_Vector2i]. lia. }
    split.
    + intros Hpx. rewrite Hp. f_equal.
      assert (Hz : Camera.MaybeCheckInView self projected = 0).
      { apply (Hbounded projected Hb). rewrite Hpx, Hsize.
        unfold in_frame. cbv [coeff Indexed_Vector2 Indexed_Vector2i].
        simpl. lra. }
      rewrite Hz. ring.
    + intros Hpx Hv. rewrite Hp. f_equal.
      assert (Hz : Camera.MaybeCheckInView self projected = 1).
      { apply (Hbounded projected Hb). rewrite Hpx, Hsize.
        unfold in_frame. cbv [coeff Indexed_Vector2 Indexed_Vector2i].
        simpl. lra. }
      rewrite Hz, Hv. ring.
  - intros Hsize.
    assert (Hu : unbounded size).
    { rewrite Hsize. unfold unbounded, default_image_size.
      cbv [coeff Indexed_Vector2i]. lia. }
    rewrite Hp, Hr, !(Hunbounded _ Hu).
    split; f_equal; ring.
Qed.

(** C9.  The bounds check touches the validity only: whether or not
    [is_valid] is null, and whatever the in-frame factor, the pixel returned
    by [Camera::PixelFromCameraPoint] is the pixel of the calibration, and
    the ray returned by [Camera::CameraRayFromPixel] is the ray of the
    calibration. *)
Theorem Camera_numeric_result_unchanged (self : Camera C) (point : Vector3)
    (pixel : Vector2) (epsilon : Scalar) (is_valid : bool) :
  fst (Camera.PixelFromCameraPoint self point epsilon is_valid)
    = fst (PixelFromCameraPoint (calibration_ self) point epsilon) /\
  fst (Camera.CameraRayFromPixel self pixel epsilon is_valid)
    = fst (CameraRayFromPixel (calibration_ self) pixel epsilon).
Proof.
  unfold Camera.PixelFromCameraPoint, Camera.CameraRayFromPixel.
  destruct (PixelFromCameraPoint (calibration_ self) point epsilon).
  destruct (CameraRayFromPixel (calibration_ self) pixel epsilon).
  split; reflexivity.
Qed.

End Gating.

Lemma not_in_frame_700_10 : ~ in_frame (Vec2i 640 480) (Vec2 700 10).
Proof.
  unfold in_frame. cbv [coeff Indexed_Vector2 Indexed_Vector2i]. simpl. lra.
Qed.

Lemma in_frame_639_0 : in_frame (Vec2i 640 480) (Vec2 639 0).
Proof.
  unfold in_frame. cbv [coeff Indexed_Vector2 Indexed_Vector2i]. simpl. lra.
Qed.

Lemma bounded_640_480 : ~ unbounded (Vec2i 640 480).
Proof. unfold unbounded. cbv [coeff Indexed_Vector2i]. lia. Qed.

(** The two pixels of section 8 on a 640 x 480 camera whose calibration
    reports validity 1, and the first of them on an unbounded camera. *)
Example gating_outside_frame :
  Camera.PixelFromCameraPoint
    (mkCamera (Vec2 700 10, Vec3 0 0 1, 1) (Vec2i 640 480)) (Vec3 0 0 1) 0 true
  = (Vec2 700 10, Some 0).
Proof.
  unfold Camera.PixelFromCameraPoint. cbn [PixelFromCameraPoint fixed_answer
    calibration_ fst snd].
  destruct (MaybeCheckInView_spec
              (mkCamera (Vec2 700 10, Vec3 0 0 1, 1) (Vec2i 640 480))
              (Vec2 700 10)) as [_ Hb].
  rewrite (Hb bounded_640_480). cbn [image_size_].
  destruct (InView_spec (Vec2 700 10) (Vec2i 640 480)) as [_ H0].
  rewrite (H0 not_in_frame_700_10).
  do 2 f_equal. ring.
Qed.

Example gating_inside_frame :
  Camera.PixelFromCameraPoint
    (mkCamera (Vec2 639 0, Vec3 0 0 1, 1) (Vec2i 640 480)) (Vec3 0 0 1) 0 true
  = (Vec2 639 0, Some 1).
Proof.
  unfold Camera.PixelFromCameraPoint. cbn [PixelFromCameraPoint fixed_answer
    calibration_ fst snd].
  destruct (MaybeCheckInView_spec
              (mkCamera (Vec2 639 0, Vec3 0 0 1, 1) (Vec2i 640 480))
              (Vec2 639 0)) as [_ Hb].
  rewrite (Hb bounded_640_480). cbn [image_size_].
  destruct (InView_spec (Vec2 639 0) (Vec2i 640 480)) as [H1 _].
  rewrite (H1 in_frame_639_0).
  do 2 f_equal. ring.
Qed.

Example gating_unbounded :
  Camera.PixelFromCameraPoint
    (mkCamera (Vec2 700 10, Vec3 0 0 1, 1) default_image_size) (Vec3 0 0 1) 0
    true
  = (Vec2 700 10, Some 1).
Proof.
  unfold Camera.PixelFromCameraPoint. cbn [PixelFromCameraPoint fixed_answer
    calibration_ fst snd].
  destruct (MaybeCheckInView_spec
              (mkCamera (Vec2 700 10, Vec3 0 0 1, 1) default_image_size)
              (Vec2 700 10)) as [Hu _].
  rewrite Hu.
  - do 2 f_equal. ring.
  - unfold unbounded, default_image_size. cbn [image_size_].
    cbv [coeff Indexed_Vector2i]. lia.
Qed.

End camera_facts.

(** ** Camera: further properties *)

Module camera_more.
Import cam camera_spec camera_facts c_int.

Section Viewport.
Context {C : Type} `{CameraCalType C}.

(** X13.  The bounds check never turns an invalid result into a valid one:
    when the calibration reports validity 0 the camera reports 0, when the
    calibration reports 0 or 1 so does the camera, and the camera reports 1
    only if the calibration does and the pixel is in frame or the image is
    unbounded.  With a null [is_valid] nothing is reported. *)
Theorem Camera_validity_never_upgraded (self : Camera C) (point : Vector3)
    (epsilon : Scalar) :
  let cal_valid :=
    snd (PixelFromCameraPoint (calibration_ self) point epsilon) in
  let pixel := fst (PixelFromCameraPoint (calibration_ self) point epsilon) in
  let valid := snd (Camera.PixelFromCameraPoint self point epsilon true) in
  (cal_valid = 0 -> valid = Some 0) /\
  (cal_valid = 0 \/ cal_valid = 1 -> valid = Some 0 \/ valid = Some 1) /\
  (cal_valid = 0 \/ cal_valid = 1 -> valid = Some 1 ->
     cal_valid = 1 /\
     (unbounded (image_size_ self) \/ in_frame (image_size_ self) pixel)) /\
  snd (Camera.PixelFromCameraPoint self point epsilon false) = None.
Proof.
  cbv zeta.
  unfold Camera.PixelFromCameraPoint.
  destruct (PixelFromCameraPoint (calibration_ self) point epsilon)
    as [px v].
  cbn [fst snd].
  destruct (MaybeCheckInView_cases self px) as [Hm|Hm]; rewrite Hm.
  - split; [intros ->; f_equal; ring|].
    split; [intros [->| ->]; [left|right]; f_equal; ring|].
    split; [|reflexivity].
    intros Hv Hone.
    assert (Hv1 : v = 1).
    { destruct Hv as [->| ->]; [|reflexivity].
      injection Hone as Hone. lra. }
    split; [exact Hv1|].
    destruct (classic (unbounded (image_size_ self))) as [Hu|Hb];
      [left; exact Hu|right].
    destruct (MaybeCheckInView_spec self px) as [_ Hin].
    rewrite (Hin Hb) in Hm.
    destruct (classic (in_frame (image_size_ self) px)) as [Hf|Hf];
      [exact Hf|].
    destruct (InView_spec px (image_size_ self)) as [_ H0].
    rewrite (H0 Hf) in Hm. lra.
  - split; [intros ->; f_equal; ring|].
    split; [intros _; left; f_equal; ring|].
    split; [|reflexivity].
    intros _ Hone. injection Hone as Hone. lra.
Qed.

(** X14.  [InView] on its own treats a non-positive image size as an empty
    frame: for image sizes that are ints above the least one, so that
    [image_size[i] - 1] does not overflow, it returns 0 for every pixel as
    soon as one of them is at most 0; only the guard of [MaybeCheckInView]
    turns such a size into "no check" and returns 1. *)
Theorem InView_nonpositive_size (self : Camera C) (pixel : Vector2) :
  has_predecessor (image_size_ self).[0] ->
  has_predecessor (image_size_ self).[1] ->
  unbounded (image_size_ self) ->
  Camera.InView pixel (image_size_ self) = 0 /\
  Camera.MaybeCheckInView self pixel = 1.
Proof.
  intros _ _ Hu.
  split.
  - apply (InView_spec pixel (image_size_ self)).
    unfold in_frame. intros [[Hx0 Hx1] [Hy0 Hy1]].
    destruct Hu as [Hu|Hu].
    + assert (IZR ((image_size_ self).[0] - 1) <= -1).
      { replace (-1) with (IZR (-1)) by reflexivity. apply IZR_le. lia. }
      lra.
    + assert (IZR ((image_size_ self).[1] - 1) <= -1).
      { replace (-1) with (IZR (-1)) by reflexivity. apply IZR_le. lia. }
      lra.
  - apply (MaybeCheckInView_spec self pixel). exact Hu.
Qed.

End Viewport.

(** The hypotheses of X14 hold at the default image size. *)
Lemma InView_nonpositive_size_witness :
  has_predecessor default_image_size.[0] /\
  has_predecessor default_image_size.[1] /\
  unbounded default_image_size /\
  Camera.InView (Vec2 3 4) default_image_size = 0.
Proof.
  assert (Hu : unbounded default_image_size).
  { unfold unbounded, default_image_size. cbv [coeff Indexed_Vector2i]. lia. }
  assert (Hp : has_predecessor (-1)).
  { unfold has_predecessor, int_min, int_max. lia. }
  split; [exact Hp|]. split; [exact Hp|]. split; [exact Hu|].
  apply (InView_nonpositive_size
           (mkCamera (Vec2 3 4, Vec3 0 0 1, 1) default_image_size)
           (Vec2 3 4) Hp Hp Hu).
Defined.

(** X15.  Enlarging the image never takes a pixel out of view: for image
    sizes that are ints above the least one, a pixel in view of an image of
    size [(w, h)] is in view of every image at least as wide and as high. *)
Theorem InView_monotone (pixel : Vector2) (w h w' h' : Z) :
  has_predecessor w -> has_predecessor h ->
  has_predecessor w' -> has_predecessor h' ->
  (w <= w')%Z -> (h <= h')%Z ->
  Camera.InView pixel (Vec2i w h) = 1 ->
  Camera.InView pixel (Vec2i w' h') = 1.
Proof.
  intros _ _ _ _ Hw Hh Hin.
  destruct (InView_spec pixel (Vec2i w h)) as [_ H0].
  destruct (InView_spec pixel (Vec2i w' h')) as [H1 _].
  apply H1.
  destruct (classic (in_frame (Vec2i w h) pixel)) as [Hf|Hf].
  - unfold in_frame in *. cbv [coeff Indexed_Vector2i] in *.
    assert (IZR (w - 1) <= IZR (w' - 1)) by (apply IZR_le; lia).
    assert (IZR (h - 1) <= IZR (h' - 1)) by (apply IZR_le; lia).
    lra.
  - rewrite (H0 Hf) in Hin. lra.
Qed.

(** The hypotheses of X15 hold for the pixel [(639, 0)] between a 640 x 480
    and a 1280 x 720 image. *)
Lemma InView_monotone_witness :
  has_predecessor 640 /\ has_predecessor 480 /\
  has_predecessor 1280 /\ has_predecessor 720 /\
  (640 <= 1280)%Z /\ (480 <= 720)%Z /\
  Camera.InView (Vec2 639 0) (Vec2i 640 480) = 1 /\
  Camera.InView (Vec2 639 0) (Vec2i 1280 720) = 1.
Proof.
  assert (Hin : Camera.InView (Vec2 639 0) (Vec2i 640 480) = 1).
  { apply (InView_spec (Vec2 639 0) (Vec2i 640 480)). exact in_frame_639_0. }
  assert (Hp : forall n, (0 < n <= 2000)%Z -> has_predecessor n).
  { intros n Hn. unfold has_predecessor, int_min, int_max. lia. }
  repeat (split; [first [apply Hp; lia | lia | exact Hin]|]).
  apply (InView_monotone (Vec2 639 0) 640 480 1280 720);
    first [apply Hp; lia | lia | exact Hin].
Defined.

End camera_more.

(** ** Approximate equality and storage *)

Module storage_facts.
Import atan_camera_cal.

Lemma norm_unit_x : DataVec.norm (Vec5 1 0 0 0 0) = 1.
Proof.
  unfold DataVec.norm. cbv [coeff Indexed_Vector5].
  replace (1 * 1 + 0 * 0 + 0 * 0 + 0 * 0 + 0 * 0) with 1 by ring.
  apply sqrt_1.
Qed.

Lemma eqb_Zero_Zero : DataVec.eqb DataVec.Zero DataVec.Zero = true.
Proof.
  unfold DataVec.eqb, DataVec.Zero. cbv [coeff Indexed_Vector5].
  assert (H : Reqb 0 0 = true) by (apply Reqb_true; reflexivity).
  rewrite H. reflexivity.
Qed.

(** C4 as stated fails on the boundary: the element
    [(1, 0, 0, 0, 0)] has norm 1, which does not exceed the tolerance 1, and
    [IsApprox] against the all-zero element reports false. *)
Lemma IsApprox_zero_case_boundary :
  let a := mkATANCameraCal (Vec5 1 0 0 0 0) in
  let b := mkATANCameraCal DataVec.Zero in
  Data b = DataVec.Zero /\
  ~ (DataVec.norm (Data a) > 1) /\
  IsApprox a b 1 = false.
Proof.
  cbv zeta. unfold IsApprox, Data. cbn [data_].
  rewrite eqb_Zero_Zero, norm_unit_x.
  split; [reflexivity|]. split; [lra|].
  destruct (Rltb 1 1) eqn:E; [|reflexivity].
  apply Rltb_true in E. lra.
Qed.

(** C4, amended.  When the storage of [b] is exactly zero, [IsApprox(a, b,
    tol)] compares the norm of [a] with [tol] directly, and strictly: it
    reports true exactly when the norm is below [tol], and false when the
    norm exceeds or equals [tol]. *)
Theorem IsApprox_zero_case (a b : ATANCameraCal) (tol : Scalar) :
  Data b = DataVec.Zero ->
  IsApprox a b tol = Rltb (DataVec.norm (Data a)) tol /\
  (IsApprox a b tol = true <-> DataVec.norm (Data a) < tol) /\
  (DataVec.norm (Data a) > tol -> IsApprox a b tol = false) /\
  (DataVec.norm (Data a) = tol -> IsApprox a b tol = false).
Proof.
  intros Hb.
  assert (Heq : IsApprox a b tol = Rltb (DataVec.norm (Data a)) tol).
  { unfold IsApprox. rewrite Hb, eqb_Zero_Zero. reflexivity. }
  rewrite Heq.
  split; [reflexivity|].
  split; [apply Rltb_true|].
  split; intros Hn;
    destruct (Rltb (DataVec.norm (Data a)) tol) eqn:E; try reflexivity;
    apply Rltb_true in E; lra.
Qed.

(** The hypothesis of C4 holds at the all-zero calibration; against it the
    element [(1, 0, 0, 0, 0)] is approximately equal at tolerance 2. *)
Lemma IsApprox_zero_case_witness :
  Data (mkATANCameraCal DataVec.Zero) = DataVec.Zero /\
  IsApprox (mkATANCameraCal (Vec5 1 0 0 0 0)) (mkATANCameraCal DataVec.Zero) 2
  = true.
Proof.
  split; [reflexivity|].
  apply (IsApprox_zero_case (mkATANCameraCal (Vec5 1 0 0 0 0))
           (mkATANCameraCal DataVec.Zero) 2 eq_refl).
  unfold Data. cbn [data_]. rewrite norm_unit_x. lra.
Defined.

(** C5.  Unflattening the flattened storage of a value gives the value
    back, component for component, and the storage has the fixed length of
    the type: for the generated struct [outputs_2_t], whatever the caller's
    vector and struct held before, and for [ATANCameraCal]. *)
Theorem FromStorage_ToStorage :
  (forall (x out : codegen_multi_function.outputs_2_t) (vec : list Scalar),
      codegen_multi_function.StorageOps.FromStorage
        (codegen_multi_function.StorageOps.ToStorage x vec) out = Some x /\
      length (codegen_multi_function.StorageOps.ToStorage x vec)
      = codegen_multi_function.StorageOps.StorageDim) /\
  (forall x : ATANCameraCal,
      FromStorage (ToStorage x) = Some x /\
      length (ToStorage x) = StorageDim).
Proof.
  split.
  - intros [f] out vec.
    unfold codegen_multi_function.StorageOps.FromStorage,
      codegen_multi_function.StorageOps.ToStorage,
      codegen_multi_function.StorageOps.StorageDim, std.resize.
    destruct vec as [|e tl]; cbn; split; reflexivity.
  - intros [[fx fy cx cy omega]].
    split; reflexivity.
Qed.

End storage_facts.

(** ** Storage and approximate equality: further properties *)

Module storage_more.
Import atan_camera_cal storage_facts.

Lemma ToStorage_overwrites_aux (value : codegen_multi_function.outputs_2_t)
    (vec : list Scalar) :
  codegen_multi_function.StorageOps.ToStorage value vec
  = [codegen_multi_function.foo value].
Proof.
  unfold codegen_multi_function.StorageOps.ToStorage, std.resize.
  destruct vec as [|e tl]; reflexivity.
Qed.

(** X16.  The storage operations of [outputs_2_t] check no length.
    [ToStorage] leaves nothing of what the caller's vector held: the result
    is the one-element vector holding [foo].  [FromStorage] reads the first
    element and ignores the rest, so it is undefined on the empty container
    only; flattening what it read gives the first element alone. *)
Theorem outputs_2_t_storage_edges (value : codegen_multi_function.outputs_2_t)
    (elements vec : list Scalar)
    (out : codegen_multi_function.outputs_2_t) :
  codegen_multi_function.StorageOps.ToStorage value vec
  = [codegen_multi_function.foo value] /\
  (codegen_multi_function.StorageOps.FromStorage elements out = None
   <-> elements = []) /\
  (forall e rest, elements = e :: rest ->
     codegen_multi_function.StorageOps.FromStorage elements out
     = Some (codegen_multi_function.mk_outputs_2_t e) /\
     codegen_multi_function.StorageOps.ToStorage
       (codegen_multi_function.mk_outputs_2_t e) vec
     = firstn 1 elements).
Proof.
  split; [apply ToStorage_overwrites_aux|].
  unfold codegen_multi_function.StorageOps.FromStorage.
  split.
  - destruct elements; cbn; split; intros; congruence.
  - intros e rest ->. cbn [nth_error].
    split; [reflexivity|].
    rewrite ToStorage_overwrites_aux. reflexivity.
Qed.

Lemma eqb_Zero_iff (u : Vector5) :
  DataVec.eqb u DataVec.Zero = true <-> u = DataVec.Zero.
Proof.
  destruct u as [u0 u1 u2 u3 u4].
  unfold DataVec.eqb, DataVec.Zero. cbv [coeff Indexed_Vector5].
  rewrite !andb_true_iff, !Reqb_true.
  split.
  - intros [[[[-> ->] ->] ->] ->]. reflexivity.
  - intros Heq. injection Heq as -> -> -> -> ->. repeat split.
Qed.

Lemma norm_nonneg (u : Vector5) : 0 <= DataVec.norm u.
Proof. unfold DataVec.norm. apply sqrt_pos. Qed.

Lemma norm_Zero : DataVec.norm DataVec.Zero = 0.
Proof.
  unfold DataVec.norm, DataVec.Zero. cbv [coeff Indexed_Vector5].
  replace (0 * 0 + 0 * 0 + 0 * 0 + 0 * 0 + 0 * 0) with 0 by ring.
  apply sqrt_0.
Qed.

Lemma norm_pos (u : Vector5) : u <> DataVec.Zero -> 0 < DataVec.norm u.
Proof.
  destruct u as [u0 u1 u2 u3 u4].
  intros Hne.
  unfold DataVec.norm. cbv [coeff Indexed_Vector5].
  apply sqrt_lt_R0.
  destruct (Req_dec u0 0) as [H0|H0]; [|nra].
  destruct (Req_dec u1 0) as [H1|H1]; [|nra].
  destruct (Req_dec u2 0) as [H2|H2]; [|nra].
  destruct (Req_dec u3 0) as [H3|H3]; [|nra].
  destruct (Req_dec u4 0) as [H4|H4]; [|nra].
  exfalso. apply Hne. subst. reflexivity.
Qed.

Lemma norm_sub_Zero_l (u : Vector5) :
  DataVec.norm (DataVec.sub DataVec.Zero u) = DataVec.norm u.
Proof.
  destruct u as [u0 u1 u2 u3 u4].
  unfold DataVec.norm, DataVec.sub, DataVec.Zero.
  cbv [coeff Indexed_Vector5].
  f_equal. ring.
Qed.

Lemma norm_sub_self (u : Vector5) : DataVec.norm (DataVec.sub u u) = 0.
Proof.
  destruct u as [u0 u1 u2 u3 u4].
  unfold DataVec.norm, DataVec.sub. cbv [coeff Indexed_Vector5].
  replace ((u0 - u0) * (u0 - u0) + (u1 - u1) * (u1 - u1)
           + (u2 - u2) * (u2 - u2) + (u3 - u3) * (u3 - u3)
           + (u4 - u4) * (u4 - u4)) with 0 by ring.
  apply sqrt_0.
Qed.

(** X17.  [IsApprox] is not symmetric around zero.  The norm test applies
    only when the second argument is all-zero; with the all-zero element
    first and any other element second, the relative comparison runs
    against a zero norm and reports false at every tolerance, even where
    the swapped call reports true. *)
Theorem IsApprox_zero_first (a : ATANCameraCal) (tol : Scalar) :
  Data a <> DataVec.Zero ->
  IsApprox (mkATANCameraCal DataVec.Zero) a tol = false /\
  (DataVec.norm (Data a) < tol ->
   IsApprox a (mkATANCameraCal DataVec.Zero) tol = true).
Proof.
  intros Hne.
  unfold IsApprox, Data in *. cbn [data_].
  split.
  - destruct (DataVec.eqb (data_ a) DataVec.Zero) eqn:E.
    + apply eqb_Zero_iff in E. contradiction.
    + unfold DataVec.isApprox.
      rewrite norm_sub_Zero_l, norm_Zero.
      pose proof (norm_pos (data_ a) Hne) as Hpos.
      rewrite Rmin_left by lra.
      destruct (Rleb (DataVec.norm (data_ a)) (tol * 0)) eqn:El;
        [|reflexivity].
      apply Rleb_true in El. lra.
  - intros Hlt.
    rewrite eqb_Zero_Zero. apply Rltb_true. exact Hlt.
Qed.

(** The hypothesis of X17 holds at [(1, 0, 0, 0, 0)]. *)
Lemma IsApprox_zero_first_witness :
  Data (mkATANCameraCal (Vec5 1 0 0 0 0)) <> DataVec.Zero /\
  IsApprox (mkATANCameraCal DataVec.Zero) (mkATANCameraCal (Vec5 1 0 0 0 0)) 2
  = false.
Proof.
  assert (Hne : Data (mkATANCameraCal (Vec5 1 0 0 0 0)) <> DataVec.Zero).
  { unfold Data, DataVec.Zero. cbn [data_]. intros Heq.
    injection Heq as Heq. lra. }
  split; [exact Hne|].
  apply (IsApprox_zero_first (mkATANCameraCal (Vec5 1 0 0 0 0)) 2 Hne).
Defined.

(** X18.  At a positive tolerance every element is approximately equal to
    itself, the all-zero one included; at tolerance 0 the all-zero element
    is not, although [operator==] holds. *)
Theorem IsApprox_reflexive (a : ATANCameraCal) (tol : Scalar) :
  0 < tol ->
  IsApprox a a tol = true /\
  IsApprox (mkATANCameraCal DataVec.Zero) (mkATANCameraCal DataVec.Zero) 0
  = false /\
  eq_op (mkATANCameraCal DataVec.Zero) (mkATANCameraCal DataVec.Zero) = true.
Proof.
  intros Htol.
  split; [|split].
  - unfold IsApprox.
    destruct (DataVec.eqb (Data a) DataVec.Zero) eqn:E.
    + apply eqb_Zero_iff in E. rewrite E, norm_Zero.
      apply Rltb_true. exact Htol.
    + unfold DataVec.isApprox. rewrite norm_sub_self.
      pose proof (norm_nonneg (Data a)) as Hn.
      rewrite Rmin_left by lra.
      apply Rleb_true. nra.
  - unfold IsApprox, Data. cbn [data_].
    rewrite eqb_Zero_Zero, norm_Zero.
    destruct (Rltb 0 0) eqn:E; [|reflexivity].
    apply Rltb_true in E. lra.
  - unfold eq_op, Data. cbn [data_]. apply eqb_Zero_Zero.
Qed.

(** The hypothesis of X18 holds at tolerance 1. *)
Lemma IsApprox_reflexive_witness :
  0 < 1 /\
  IsApprox (mkATANCameraCal (Vec5 1 0 0 0 0))
           (mkATANCameraCal (Vec5 1 0 0 0 0)) 1 = true.
Proof.
  split; [lra|].
  apply (IsApprox_reflexive (mkATANCameraCal (Vec5 1 0 0 0 0)) 1). lra.
Defined.

End storage_more.

(** ** The generated test function and the message type *)

Module codegen_facts.
Import codegen_multi_function_ns.

Lemma Vector9_of_data_None (data : list Scalar) :
  Vector9_of_data data = None <-> (length data < 9)%nat.
Proof.
  unfold Vector9_of_data.
  do 9 (destruct data as [|? data]; [cbn; split; [intros; lia | reflexivity]|]).
  cbn. split; [discriminate | lia].
Qed.

(** X19.  [CodegenMultiFunctionTest1] reads nine scalars of the flattened
    inputs and is out of bounds exactly when there are fewer; its outputs
    depend on entries 0, 1, 5 and 6 only: two inputs whose storage agrees
    there give the same result, whatever entries 2, 3, 4, 7, 8 and the
    tail hold. *)
Theorem CodegenMultiFunctionTest1_reads (inputs_t outputs_1_t : Type)
    (ToStorage : inputs_t -> list Scalar)
    (FromStorage : Vector2 -> outputs_1_t -> outputs_1_t)
    (x y : inputs_t) (out : outputs_1_t) (u v : Vector9) :
  Vector9_of_data (ToStorage x) = Some u ->
  Vector9_of_data (ToStorage y) = Some v ->
  u.[0] = v.[0] -> u.[1] = v.[1] -> u.[5] = v.[5] -> u.[6] = v.[6] ->
  CodegenMultiFunctionTest1 inputs_t outputs_1_t ToStorage FromStorage x out
  = CodegenMultiFunctionTest1 inputs_t outputs_1_t ToStorage FromStorage y out
  /\
  (forall z : inputs_t,
      CodegenMultiFunctionTest1 inputs_t outputs_1_t ToStorage FromStorage
        z out = None
      <-> (length (ToStorage z) < 9)%nat).
Proof.
  intros Hu Hv H0 H1 H5 H6.
  split.
  - unfold CodegenMultiFunctionTest1. rewrite Hu, Hv.
    rewrite H0, H1, H5, H6. reflexivity.
  - intros z. unfold CodegenMultiFunctionTest1.
    rewrite <- Vector9_of_data_None.
    destruct (Vector9_of_data (ToStorage z)); split; intros; congruence.
Qed.

(** The hypotheses of X19 hold for two flattened inputs that differ in
    entries 2, 3, 4, 7, 8 and in length. *)
Lemma CodegenMultiFunctionTest1_reads_witness :
  CodegenMultiFunctionTest1 (list Scalar) Vector2 (fun l => l) (fun o _ => o)
    [1; 2; 0; 0; 0; 3; 4; 0; 0] (Vec2 0 0)
  = CodegenMultiFunctionTest1 (list Scalar) Vector2 (fun l => l) (fun o _ => o)
    [1; 2; 9; 9; 9; 3; 4; 9; 9; 9] (Vec2 0 0).
Proof.
  apply (CodegenMultiFunctionTest1_reads (list Scalar) Vector2 (fun l => l)
           (fun o _ => o) [1; 2; 0; 0; 0; 3; 4; 0; 0]
           [1; 2; 9; 9; 9; 3; 4; 9; 9; 9] (Vec2 0 0)
           (Vec9 1 2 0 0 0 3 4 0 0) (Vec9 1 2 9 9 9 3 4 9 9));
    reflexivity.
Defined.

End codegen_facts.

Module states_t_facts.
Import codegen_python_test.

Lemma in_parents_In (fp : list hash_fn) :
  in_parents fp = true <-> In states_t_getHash fp.
Proof.
  induction fp as [|v parent IH]; cbn.
  - split; [discriminate | tauto].
  - destruct v as [|id]; cbn.
    + split; auto.
    + rewrite IH. split; [auto | intros [H|H]; [discriminate | exact H]].
Qed.

(** The rotation of a 64-bit word by one bit to the left, as
    [_computeHash] writes it. *)
Lemma rotate_left_1 (hash : Z) :
  (0 <= hash < 2 ^ 64)%Z ->
  uint64_add (uint64_shl hash 1) (Z.land (Z.shiftr hash 63) 1)
  = (2 * (hash mod 2 ^ 63) + hash / 2 ^ 63)%Z.
Proof.
  intros Hh.
  unfold uint64_add, uint64_shl, uint64_max.
  rewrite Z.shiftl_mul_pow2 by lia.
  rewrite Z.shiftr_div_pow2 by lia.
  change (Z.land (hash / 2 ^ 63) 1) with (Z.land (hash / 2 ^ 63) (Z.ones 1)).
  rewrite Z.land_ones by lia.
  change (2 ^ 1)%Z with 2%Z.
  change (2 ^ 64)%Z with 18446744073709551616%Z in *.
  change (2 ^ 63)%Z with 9223372036854775808%Z.
  Z.div_mod_to_equations. lia.
Qed.

(** X20.  [_computeHash] returns 0 when the type is already in the parent
    chain (the recursion guard); otherwise it is the 64-bit sum of the
    type's constant and the member's hash, rotated left by one bit.  The
    result is a 64-bit word, and two member hashes give the same
    fingerprint only if they agree modulo [2^64]. *)
Theorem computeHash_spec (member member' : list hash_fn -> Z)
    (parents : list hash_fn) :
  let sum (m : list hash_fn -> Z) :=
    ((0x0012345678017000 + m (states_t_getHash :: parents)) mod 2 ^ 64)%Z in
  (In states_t_getHash parents -> _computeHash member parents = 0%Z) /\
  (~ In states_t_getHash parents ->
     _computeHash member parents
     = (2 * (sum member mod 2 ^ 63) + sum member / 2 ^ 63)%Z /\
     (_computeHash member parents = _computeHash member' parents ->
      (member (states_t_getHash :: parents) mod 2 ^ 64
       = member' (states_t_getHash :: parents) mod 2 ^ 64)%Z)) /\
  (0 <= _computeHash member parents < 2 ^ 64)%Z.
Proof.
  cbv zeta.
  assert (Hrange : forall m : list hash_fn -> Z,
             (0 <= uint64_add 0x0012345678017000
                     (m (states_t_getHash :: parents)) < 2 ^ 64)%Z).
  { intros m. unfold uint64_add, uint64_max. apply Z.mod_pos_bound. lia. }
  assert (Hval : forall m : list hash_fn -> Z,
             ~ In states_t_getHash parents ->
             _computeHash m parents
             = (2 * (uint64_add 0x0012345678017000
                       (m (states_t_getHash :: parents)) mod 2 ^ 63)
                + uint64_add 0x0012345678017000
                    (m (states_t_getHash :: parents)) / 2 ^ 63)%Z).
  { intros m Hnot. unfold _computeHash.
    destruct (in_parents parents) eqn:E.
    - apply in_parents_In in E. contradiction.
    - cbv zeta. apply rotate_left_1. apply Hrange. }
  split; [|split].
  - intros Hin. unfold _computeHash.
    apply in_parents_In in Hin. rewrite Hin. reflexivity.
  - intros Hnot. split.
    + rewrite (Hval member Hnot). reflexivity.
    + rewrite (Hval member Hnot), (Hval member' Hnot).
      pose proof (Hrange member) as H1. pose proof (Hrange member') as H2.
      set (a := uint64_add 0x0012345678017000
                  (member (states_t_getHash :: parents))) in *.
      set (b := uint64_add 0x0012345678017000
                  (member' (states_t_getHash :: parents))) in *.
      intros Heq.
      assert (Hab : a = b).
      { change (2 ^ 64)%Z with 18446744073709551616%Z in *.
        change (2 ^ 63)%Z with 9223372036854775808%Z in *.
        Z.div_mod_to_equations. lia. }
      unfold a, b, uint64_add, uint64_max in Hab.
      change (2 ^ 64)%Z with 18446744073709551616%Z in *.
      revert Hab. clear. intros Hab.
      Z.div_mod_to_equations. lia.
  - unfold _computeHash.
    destruct (in_parents parents) eqn:E; [lia|].
    cbv zeta. unfold uint64_add at 1, uint64_max.
    apply Z.mod_pos_bound. lia.
Qed.

Section Wire.
Variable buffer : Type.
Variable Vector2d : Type.
Variable int64_t_encode_array : buffer -> Z -> Z -> Z -> buffer * Z.
Variable int64_t_decode_array : buffer -> Z -> Z -> Z * Z.
Variable Vector2d_encodeNoHash : Vector2d -> buffer -> Z -> Z -> buffer * Z.
Variable Vector2d_decodeNoHash : Vector2d -> buffer -> Z -> Z -> Vector2d * Z.
Variable Vector2d_getEncodedSizeNoHash : Vector2d -> Z.
Variable Vector2d_computeHash : list hash_fn -> Z.

Local Abbreviation msg := (states_t Vector2d).
Local Abbreviation hash := (getHash Vector2d_computeHash).

(** X21.  [decode] accepts a message only under its own fingerprint: when
    reading the fingerprint fails, or the fingerprint read differs from
    [getHash()], it returns a negative code and leaves the object as it
    was, without decoding the member; only otherwise is the member decoded,
    just behind the fingerprint, and a non-negative result is the sum of
    the two lengths. *)
Theorem decode_checks_fingerprint (self : msg) (buf : buffer)
    (offset maxlen : Z) :
  let msg_hash := fst (int64_t_decode_array buf offset maxlen) in
  let thislen := snd (int64_t_decode_array buf offset maxlen) in
  let member :=
    Vector2d_decodeNoHash (p Vector2d self) buf (offset + thislen)
      (maxlen - thislen) in
  let result :=
    decode buffer Vector2d int64_t_decode_array Vector2d_decodeNoHash
      Vector2d_computeHash self buf offset maxlen in
  let hash := getHash Vector2d_computeHash in
  ((thislen < 0)%Z -> result = (self, thislen)) /\
  ((0 <= thislen)%Z -> msg_hash <> hash -> result = (self, (-1)%Z)) /\
  ((0 <= thislen)%Z -> msg_hash = hash ->
     fst result = mk_states_t Vector2d (fst member) /\
     snd result = (if (snd member <? 0)%Z then snd member
                   else thislen + snd member)%Z) /\
  ((0 <= snd result)%Z ->
     msg_hash = hash /\ (0 <= thislen)%Z /\ (0 <= snd member)%Z /\
     snd result = (thislen + snd member)%Z).
Proof.
  cbv zeta. unfold decode, _decodeNoHash. cbv zeta.
  rewrite Z.add_0_r, Z.sub_0_r.
  destruct (int64_t_decode_array buf offset maxlen) as [mh tl].
  cbn [fst snd].
  destruct (Z.ltb_spec tl 0) as [Hneg|Hpos].
  - split; [reflexivity|]. split; [lia|]. split; [lia|].
    cbn [snd]. lia.
  - rewrite !Z.add_0_l, !Z.add_0_r, !Z.sub_0_r.
    destruct (Z.eqb_spec mh hash) as [Heq|Hne]; cbn [negb].
    + destruct (Vector2d_decodeNoHash (p Vector2d self) buf (offset + tl)
                  (maxlen - tl)) as [p' ml].
      cbn [fst snd].
      split; [lia|]. split; [congruence|].
      destruct (ml <? 0)%Z eqn:E; cbn [fst snd]; rewrite ?Z.add_0_l, ?E;
        cbn [fst snd];
        [apply Z.ltb_lt in E | apply Z.ltb_ge in E].
      * split; [intros _ _; split; reflexivity|]. lia.
      * split; [intros _ _; split; reflexivity|].
        intros _. repeat split; try assumption; lia.
    + split; [lia|]. split; [reflexivity|]. split; [congruence|].
      cbn [snd]. lia.
Qed.

(** X22.  [encode] writes the fingerprint first and the member just behind
    it.  A failed fingerprint write is returned as it is and the member is
    not written; a failed member write is returned as it is; otherwise the
    result is the sum of the two lengths, which is [getEncodedSize()] when
    the fingerprint takes 8 bytes and the member reports the size it
    announces. *)
Theorem encode_lengths (self : msg) (buf : buffer) (offset maxlen : Z) :
  let head :=
    int64_t_encode_array buf offset maxlen (getHash Vector2d_computeHash) in
  let member :=
    Vector2d_encodeNoHash (p Vector2d self) (fst head) (offset + snd head)
      (maxlen - snd head) in
  let result :=
    encode buffer Vector2d int64_t_encode_array Vector2d_encodeNoHash
      Vector2d_computeHash self buf offset maxlen in
  ((snd head < 0)%Z -> result = head) /\
  ((0 <= snd head)%Z -> (snd member < 0)%Z -> result = member) /\
  ((0 <= snd head)%Z -> (0 <= snd member)%Z ->
     result = (fst member, (snd head + snd member)%Z)) /\
  (snd head = 8%Z ->
   snd member = Vector2d_getEncodedSizeNoHash (p Vector2d self) ->
   (0 <= snd member)%Z ->
   snd result
   = getEncodedSize Vector2d Vector2d_getEncodedSizeNoHash self).
Proof.
  cbv zeta. unfold encode, _encodeNoHash, getEncodedSize, _getEncodedSizeNoHash.
  cbv zeta.
  rewrite Z.add_0_r, Z.sub_0_r.
  destruct (int64_t_encode_array buf offset maxlen hash) as [b1 t1].
  cbn [fst snd].
  destruct (Z.ltb_spec t1 0) as [Hneg|Hpos].
  - split; [reflexivity|]. split; [lia|]. split; [lia|]. lia.
  - rewrite !Z.add_0_l, !Z.add_0_r, !Z.sub_0_r.
    destruct (Vector2d_encodeNoHash (p Vector2d self) b1 (offset + t1)
                (maxlen - t1)) as [b2 t2].
    cbn [fst snd].
    destruct (t2 <? 0)%Z eqn:E; rewrite ?Z.add_0_l, ?E;
      [apply Z.ltb_lt in E | apply Z.ltb_ge in E].
    + split; [lia|]. split; [reflexivity|]. split; [lia|]. lia.
    + split; [lia|]. split; [lia|].
      split; [intros _ _; reflexivity|].
      intros H8 Hsize _. cbn [snd]. lia.
Qed.

End Wire.
End states_t_facts.
